(** * Sunshine class assigner: a shallow embedding of [Sunshine.py] and
      [Analysis.py], and the properties of the allocation proved on it.

    The embedding follows the Python source function by function.  Library
    calls are modelled as follows.
    - [DataFrame.sort_values] is pandas code.  The source calls it with the
      default [kind] (['quicksort']), which pandas documents as not stable;
      what the call guarantees is that the result is a rearrangement of the
      rows, ordered by the key.  That contract is the class [Pandas]; every
      property of the allocator is proved for every implementation of it.
    - [random.shuffle] is CPython's Fisher-Yates loop over [_randbelow]; the
      generator state is a list of raw draws.
    - [Series.rank(method='min', ascending=False)] gives each value the first
      (1-based) position of its tie group in the descending order.
    - Scores of the allocator are compared and never added, so they are
      integers here (any finite set of floats embeds in [Z] with its
      order); the balance report averages, so it works over [Q]. *)

From Stdlib Require Import String ZArith List Lia Bool Arith Permutation Sorted FinFun.
From Stdlib Require Import QArith Qround.
Import ListNotations.

Local Open Scope Z_scope.

(** ** Python lists *)

Module Py.

(** [slice.indices] for one bound of a slice with step 1 on a sequence of
    length [len]: a negative bound counts from the end, and the result is
    clamped to [0, len]. *)
Definition clamp (len i : Z) : Z :=
  if i <? 0 then Z.max (len + i) 0 else Z.min i len.

(** [l[start:stop]] and [df.iloc[start:stop]]; [None] is an omitted bound. *)
Definition slice {A : Type} (start stop : option Z) (l : list A) : list A :=
  let len := Z.of_nat (length l) in
  let lo := match start with None => 0 | Some i => clamp len i end in
  let hi := match stop with None => len | Some i => clamp len i end in
  firstn (Z.to_nat (hi - lo)) (skipn (Z.to_nat lo) l).

(** [list(range(a, b))]. *)
Definition range (a b : Z) : list Z :=
  map (fun i => a + Z.of_nat i) (seq 0 (Z.to_nat (b - a))).

(** [l[i] = v]; the callers below only write inside the list (Python would
    raise [IndexError] outside). *)
Fixpoint setitem {A : Type} (i : nat) (v : A) (l : list A) : list A :=
  match l, i with
  | [], _ => []
  | _ :: t, O => v :: t
  | h :: t, S i' => h :: setitem i' v t
  end.

(** [x[i], x[j] = x[j], x[i]]: the right-hand side is read first, then
    [x[i]] and [x[j]] are written in that order. *)
Definition swap {A : Type} (i j : nat) (x : list A) : list A :=
  match nth_error x j, nth_error x i with
  | Some xj, Some xi => setitem j xi (setitem i xj x)
  | _, _ => x
  end.

End Py.

(** ** The random module *)

Module Random.

(** State of the generator: the raw draws still to come.  An exhausted
    list keeps answering 0. *)
Definition state := list nat.

(** [_randbelow(n)]: a value in [0, n). *)
Definition randbelow (n : nat) (g : state) : nat * state :=
  match g with
  | [] => (O, [])
  | d :: g' => (Nat.modulo d n, g')
  end.

(** The loop of [random.shuffle]:
    [for i in reversed(range(1, len(x))): j = randbelow(i + 1); swap]. *)
Fixpoint shuffle_from {A : Type} (i : nat) (x : list A) (g : state)
  : list A * state :=
  match i with
  | O => (x, g)
  | S i' =>
      let (j, g') := randbelow (S i) g in
      shuffle_from i' (Py.swap i j x) g'
  end.

Definition shuffle {A : Type} (x : list A) (g : state) : list A * state :=
  shuffle_from (length x - 1) x g.

End Random.

(** ** pandas *)

(** Insertion sort; the reference sort used for [Series.rank] and for the
    instance of [Pandas] below.  It is stable: an element is put in front
    of the first element it may precede. *)
Fixpoint insert_by {A : Type} (le : A -> A -> bool) (x : A) (l : list A)
  : list A :=
  match l with
  | [] => [x]
  | y :: t => if le x y then x :: l else y :: insert_by le x t
  end.

Fixpoint isort {A : Type} (le : A -> A -> bool) (l : list A) : list A :=
  match l with
  | [] => []
  | x :: t => insert_by le x (isort le t)
  end.

Definition total {A : Type} (le : A -> A -> bool) : Prop :=
  forall a b, le a b = true \/ le b a = true.

Definition transitive {A : Type} (le : A -> A -> bool) : Prop :=
  forall a b c, le a b = true -> le b c = true -> le a c = true.

(** What a call of [DataFrame.sort_values] guarantees, whatever the sorting
    algorithm ([kind]): the rows are rearranged, and the result is ordered
    by the sort key, given here as the comparison "may stand before".
    Nothing is said about the order of rows with equal keys. *)
Class Pandas : Type := {
  sort_values : forall {A : Type}, (A -> A -> bool) -> list A -> list A;
  sort_values_perm :
    forall (A : Type) (le : A -> A -> bool) (l : list A),
      Permutation (sort_values le l) l;
  sort_values_sorted :
    forall (A : Type) (le : A -> A -> bool) (l : list A),
      total le -> transitive le ->
      StronglySorted (fun a b => le a b = true) (sort_values le l)
}.

Module Series.

(** 0-based position of the first element equal to [v]. *)
Fixpoint first_index (v : Z) (l : list Z) : nat :=
  match l with
  | [] => O
  | x :: t => if x =? v then O else S (first_index v t)
  end.

(** [s.rank(method='min', ascending=False).astype(int)]: every value gets
    the lowest 1-based position of its tie group in descending order. *)
Definition rank_min_desc (s : list Z) : list Z :=
  let sorted := isort (fun a b => b <=? a) s in
  map (fun v => 1 + Z.of_nat (first_index v sorted)) s.

End Series.

(** ** Sunshine.py *)

Module Sunshine.

(** A row of the sheet as [pd.read_excel] returns it.  [cell_score] is the
    score cell after [pd.to_numeric(errors='coerce')]: [None] is NaN. *)
Record cell_row : Type := mkCell {
  cell_name : string;
  cell_gender : string;
  cell_origin : string;
  cell_score : option Z
}.

Record sheet : Type := mkSheet {
  has_origin_column : bool;
  sheet_rows : list cell_row
}.

(** A row of the cleaned frame: columns name, gender, score and origin (the
    last is read only when the sheet has that column). *)
Record student : Type := mkStudent {
  name : string;
  gender : string;
  origin : string;
  score : Z
}.

(** A row once the grade-rank column is added, and once the class column is. *)
Record ranked : Type := mkRanked {
  ranked_student : student;
  grade_rank : Z
}.

Record assigned : Type := mkAssigned {
  assigned_row : ranked;
  class_id : Z
}.

Definition rscore (r : ranked) : Z := score (ranked_student r).
Definition ascore (a : assigned) : Z := rscore (assigned_row a).
Definition student_of (a : assigned) : student :=
  ranked_student (assigned_row a).

(** The object: [self.K], [self.top_N], [self.bot_N], [self.has_rural]. *)
Record SunshineDistributor : Type := mkSelf {
  K : Z;
  top_N : Z;
  bot_N : Z;
  has_rural : bool
}.

(** [__init__]. *)
Definition init (n_classes top_n_per_class bottom_n_per_class : Z)
  : SunshineDistributor :=
  {| K := n_classes;
     top_N := top_n_per_class * n_classes;
     bot_N := bottom_n_per_class * n_classes;
     has_rural := false |}.

(** [df.dropna(subset=[score])]. *)
Fixpoint dropna (rows : list cell_row) : list student :=
  match rows with
  | [] => []
  | c :: t =>
      match cell_score c with
      | Some v =>
          mkStudent (cell_name c) (cell_gender c) (cell_origin c) v :: dropna t
      | None => dropna t
      end
  end.

(** [load_data] on a file that exists and has the required columns: it
    records whether the origin column is there and drops the rows whose
    score is not a number. *)
Definition load_data (self : SunshineDistributor) (sh : sheet)
  : SunshineDistributor * list student :=
  ({| K := K self; top_N := top_N self; bot_N := bot_N self;
      has_rural := if has_origin_column sh then true else has_rural self |},
   dropna (sheet_rows sh)).

(** *** Effects: the random generator, exits and loops *)

(** The generator, and as a ghost trace the permutations that
    [random.shuffle] has returned so far. *)
Record world : Type := mkWorld {
  rng : Random.state;
  shuffled : list (list Z)
}.

Inductive error : Type :=
| InsufficientData (needed : Z)   (* the size check of [run]: [sys.exit(1)] *)
| NoObjectsToConcatenate.         (* [pd.concat([])] raises [ValueError] *)

Inductive res (A : Type) : Type :=
| Ret (a : A)
| Abort (e : error)
| Loop.                            (* the [while] loop never ends *)

Arguments Ret {A} a.
Arguments Abort {A} e.
Arguments Loop {A}.

Definition M (A : Type) : Type := world -> res A * world.

Definition ret {A : Type} (a : A) : M A := fun w => (Ret a, w).

Definition bind {A B : Type} (m : M A) (f : A -> M B) : M B :=
  fun w =>
    match m w with
    | (Ret a, w') => f a w'
    | (Abort e, w') => (Abort e, w')
    | (Loop, w') => (Loop, w')
    end.

Notation "x <- m ;; f" := (bind m (fun x => f))
  (at level 61, m at next level, right associativity).

Definition abort {A : Type} (e : error) : M A := fun w => (Abort e, w).

(** [random.shuffle(x)] on the global generator. *)
Definition shuffle (x : list Z) : M (list Z) :=
  fun w =>
    let (x', g') := Random.shuffle x (rng w) in
    (Ret x', {| rng := g'; shuffled := shuffled w ++ [x'] |}).

(** [for a in l: s = body(a, s)]. *)
Fixpoint for_each {A S : Type} (body : A -> S -> M S) (l : list A) (s : S)
  : M S :=
  match l with
  | [] => ret s
  | a :: t => s' <- body a s ;; for_each body t s'
  end.

(** *** The snake distributor *)

(** The loop
    [while len(snake_pattern) < n: extend(class_indices); extend(reversed)].
    Every round costs one unit of fuel; [None] is fuel exhausted. *)
Fixpoint snake_loop (fuel : nat) (class_indices snake_pattern : list Z)
  (n : nat) : option (list Z) :=
  if (length snake_pattern <? n)%nat then
    match fuel with
    | O => None
    | S fuel' =>
        snake_loop fuel' class_indices
          ((snake_pattern ++ class_indices) ++ rev class_indices) n
    end
  else Some snake_pattern.

(** The loop run with [n] units of fuel: a round with a non-empty
    [class_indices] adds at least two ids, so [n] rounds are never needed,
    and with an empty [class_indices] the pattern never grows and the Python
    loop does not end ([snake_loop_enough], [snake_loop_diverges]). *)
Definition snake_while (class_indices : list Z) (n : nat) : M (list Z) :=
  fun w =>
    match snake_loop n class_indices [] n with
    | Some p => (Ret p, w)
    | None => (Loop, w)
    end.

(** [sub_df[class] = ids]: the column is set row by row (the lengths agree
    at the only call). *)
Definition set_class (rows : list ranked) (ids : list Z) : list assigned :=
  map (fun p => mkAssigned (fst p) (snd p)) (combine rows ids).

Definition by_score_desc (a b : ranked) : bool := rscore b <=? rscore a.

Section WithPandas.

Context {pandas : Pandas}.

(** [_distribute_sub_group(self, sub_df, assigned_list)]. *)
Definition _distribute_sub_group (self : SunshineDistributor)
  (sub_df : list ranked) (assigned_list : list (list assigned))
  : M (list (list assigned)) :=
  match sub_df with
  | [] => ret assigned_list
  | _ :: _ =>
      let sub_df := sort_values by_score_desc sub_df in
      class_indices <- shuffle (Py.range 1 (K self + 1)) ;;
      snake_pattern <- snake_while class_indices (length sub_df) ;;
      let ids :=
        Py.slice None (Some (Z.of_nat (length sub_df))) snake_pattern in
      ret (assigned_list ++ [set_class sub_df ids])
  end.

(** The column [rank] is added to the frame. *)
Definition set_rank (df : list student) (ranks : list Z) : list ranked :=
  map (fun p => mkRanked (fst p) (snd p)) (combine df ranks).

Definition is_male (r : ranked) : bool :=
  String.eqb (gender (ranked_student r)) "男".
Definition is_female (r : ranked) : bool :=
  String.eqb (gender (ranked_student r)) "女".
Definition is_urban (r : ranked) : bool :=
  String.eqb (origin (ranked_student r)) "城区".
Definition is_rural (r : ranked) : bool :=
  String.eqb (origin (ranked_student r)) "乡下".

(** The list [groups] built for one layer. *)
Definition groups (self : SunshineDistributor) (layer : list ranked)
  : list (list ranked) :=
  if has_rural self then
    [ filter (fun r => is_male r && is_urban r) layer;
      filter (fun r => is_male r && is_rural r) layer;
      filter (fun r => is_female r && is_urban r) layer;
      filter (fun r => is_female r && is_rural r) layer ]
  else
    [ filter is_male layer; filter is_female layer ].

(** The three slices [df_top], [df_mid], [df_bot], in the order of
    [layers]. *)
Definition layers (self : SunshineDistributor) (df : list ranked)
  : list (list ranked) :=
  [ Py.slice None (Some (top_N self)) df;
    Py.slice (Some (top_N self)) (Some (- bot_N self)) df;
    Py.slice (Some (- bot_N self)) None df ].

Definition by_class_then_score (a b : assigned) : bool :=
  (class_id a <? class_id b)
  || ((class_id a =? class_id b) && (ascore b <=? ascore a)).

(** [pd.concat(assigned_list)]. *)
Definition pd_concat (assigned_list : list (list assigned))
  : M (list assigned) :=
  match assigned_list with
  | [] => abort NoObjectsToConcatenate
  | _ :: _ => ret (concat assigned_list)
  end.

(** The ranked and sorted frame of [run], before the size check. *)
Definition ranked_frame (df : list student) : list ranked :=
  let df := set_rank df (Series.rank_min_desc (map score df)) in
  sort_values by_score_desc df.

(** The part of [run] after [load_data]. *)
Definition allocate (self : SunshineDistributor) (df : list student)
  : M (list assigned) :=
  let df := ranked_frame df in
  if Z.of_nat (length df) <? top_N self + bot_N self then
    abort (InsufficientData (top_N self + bot_N self))
  else
    assigned_list <-
      for_each
        (fun layer acc =>
           for_each (_distribute_sub_group self) (groups self layer) acc)
        (layers self df) [] ;;
    result <- pd_concat assigned_list ;;
    ret (sort_values by_class_then_score result).

(** [run(self, file_path)], on the sheet found at [file_path]. *)
Definition run (self : SunshineDistributor) (sh : sheet)
  : M (list assigned) :=
  let (self, df) := load_data self sh in
  allocate self df.

End WithPandas.

End Sunshine.

(** ** Analysis.py *)

Module Analysis.

Local Open Scope Q_scope.

(** A row of the class-labelled sheet.  [row_score] and [row_origin] are
    read only when the frame has those columns. *)
Record row : Type := mkRow {
  row_class : Z;
  row_gender : string;
  row_score : Q;
  row_origin : string
}.

(** [rows] are the rows of a sheet in which every class cell is filled
    ([row_class] is a number).  [df.groupby] leaves a row with an empty key
    out of every group and nothing else of the report reads the rows, so
    for a sheet with empty class cells [rows] are its other rows. *)
Record frame : Type := mkFrame {
  has_score : bool;       (* the score column is among [df.columns] *)
  has_rural : bool;       (* the origin column is among [df.columns] *)
  rows : list row
}.

(** A [pd.Series] built from a dict: labels and values in insertion order. *)
Definition series : Type := list (string * Q).

Inductive label : Type :=
| ClassLabel (c : Z)
| AverageLabel.           (* the index label of the added average row *)

(** A frame of statistics: index label and row. *)
Definition table : Type := list (label * series).

Definition qsum (l : list Q) : Q := fold_right Qplus 0 l.

(** [Series.mean()]. *)
Definition mean (l : list Q) : Q := qsum l / inject_Z (Z.of_nat (length l)).

(** [np.rint]: the nearest integer, halves to the even one. *)
Definition rint (q : Q) : Z :=
  let f := Qfloor q in
  match Qcompare (q - inject_Z f) (1 # 2) with
  | Lt => f
  | Gt => (f + 1)%Z
  | Eq => if Z.even f then f else (f + 1)%Z
  end.

(** [round(x, 2)] on a numpy float: [rint(x * 100) / 100]. *)
Definition round2 (q : Q) : Q := inject_Z (rint (q * 100)) / 100.

Definition count_where (p : row -> bool) (x : list row) : Q :=
  inject_Z (Z.of_nat (length (filter p x))).

(** [calc_stats(x)] for the rows [x] of one class. *)
Definition calc_stats (df : frame) (x : list row) : series :=
  [ ("男生"%string, count_where (fun r => String.eqb (row_gender r) "男") x);
    ("女生"%string, count_where (fun r => String.eqb (row_gender r) "女") x);
    ("总人数"%string, inject_Z (Z.of_nat (length x))) ]
  ++ (if has_score df
      then [ ("平均分"%string, round2 (mean (map row_score x))) ]
      else [])
  ++ (if has_rural df
      then [ ("城区"%string,
              count_where (fun r => String.eqb (row_origin r) "城区") x);
             ("乡下"%string,
              count_where (fun r => String.eqb (row_origin r) "乡下") x) ]
      else []).

(** The keys of [df.groupby(class)]: the distinct class ids, ascending. *)
Fixpoint dedup_sorted (l : list Z) : list Z :=
  match l with
  | [] => []
  | x :: t =>
      match t with
      | [] => [x]
      | y :: _ => if (x =? y)%Z then dedup_sorted t else x :: dedup_sorted t
      end
  end.

Definition group_keys (x : list row) : list Z :=
  dedup_sorted (isort Z.leb (map row_class x)).

(** [result = df.groupby(class).apply(calc_stats)]. *)
Definition per_class (df : frame) : list (Z * series) :=
  map (fun c =>
         (c, calc_stats df
               (filter (fun r => (row_class r =? c)%Z) (rows df))))
      (group_keys (rows df)).

(** One column of a table of series; a label that is absent reads as 0 (all
    rows built by [calc_stats] for one frame have the same labels). *)
Fixpoint get (col : string) (s : series) : Q :=
  match s with
  | [] => 0
  | (k, v) :: t => if String.eqb k col then v else get col t
  end.

Definition columns (result : list (Z * series)) : list string :=
  match result with
  | [] => []
  | (_, s) :: _ => map fst s
  end.

(** [avg_row = result.mean()]: the mean of every column. *)
Definition column_means (result : list (Z * series)) : series :=
  map (fun col => (col, mean (map (fun r => get col (snd r)) result)))
      (columns result).

(** [final_df]: the per-class rows, then the row labelled average, with the
    columns put in the order [cols_order]. *)
Definition cols_order (df : frame) (present : list string) : list string :=
  filter (fun c => existsb (String.eqb c) present)
    (["男生"; "女生"; "总人数"; "平均分"]%string
     ++ (if has_rural df then ["城区"; "乡下"]%string else [])).

Definition reorder (cols : list string) (s : series) : series :=
  map (fun c => (c, get c s)) cols.

Definition analyze_class_balance (df : frame) : table :=
  let result := per_class df in
  let avg_row := column_means result in
  let final_df :=
    map (fun r => (ClassLabel (fst r), snd r)) result
    ++ [(AverageLabel, avg_row)] in
  let cols := cols_order df (columns result) in
  map (fun r => (fst r, reorder cols (snd r))) final_df.

(** The row of a table with a given label. *)
Definition is_average (l : label) : bool :=
  match l with AverageLabel => true | ClassLabel _ => false end.

Definition average_row (t : table) : option series :=
  match filter (fun r => is_average (fst r)) t with
  | [] => None
  | r :: _ => Some (snd r)
  end.

Definition class_rows (t : table) : list series :=
  map snd (filter (fun r => negb (is_average (fst r))) t).

End Analysis.

(** * Vocabulary of the properties *)

Import Sunshine.

(** ** The snake pattern *)

(** One round of the loop appends [block ci]; after [m] rounds the pattern
    is [blocks ci m]. *)
Definition block (ci : list Z) : list Z := ci ++ rev ci.

Fixpoint blocks (ci : list Z) (m : nat) : list Z :=
  match m with
  | O => []
  | S m' => blocks ci m' ++ block ci
  end.

Abbreviation count := (count_occ Z.eq_dec).

(** [class_indices] after the shuffle: every id of [1..K] exactly once. *)
Definition base_permutation (k : Z) (g : Random.state) : list Z :=
  fst (Random.shuffle (Py.range 1 (k + 1)) g).

(** The class column of a list of rows, in row order. *)
Definition class_ids (rows : list assigned) : list Z := map class_id rows.

(** Number of rows of a frame that carry class [c]. *)
Definition headcount (c : Z) (rows : list assigned) : Z :=
  Z.of_nat (count (class_ids rows) c).

(** ** Groups, ranks and ties *)

(** A student the group filters recognise: gender is one of the two
    literals and, when the origin column is used, so is origin. *)
Definition recognised (four_way : bool) (s : student) : bool :=
  (String.eqb (gender s) "男" || String.eqb (gender s) "女")
  && (negb four_way
      || String.eqb (origin s) "城区" || String.eqb (origin s) "乡下").

(** Number of the filters [ps] that keep [x]. *)
Definition hits {A : Type} (ps : list (A -> bool)) (x : A) : nat :=
  length (filter (fun p => p x) ps).

Definition group_filters (self : SunshineDistributor)
  : list (ranked -> bool) :=
  if has_rural self then
    [ (fun r => is_male r && is_urban r); (fun r => is_male r && is_rural r);
      (fun r => is_female r && is_urban r);
      (fun r => is_female r && is_rural r) ]
  else [ is_male; is_female ].

(** Number of scores of [l] strictly above [v]. *)
Definition above (v : Z) (l : list Z) : nat :=
  length (filter (fun x => v <? x) l).

Definition desc (a b : Z) : bool := b <=? a.

(** The class of a row is one of [1..K]. *)
Definition in_range (self : SunshineDistributor) (a : assigned) : Prop :=
  1 <= class_id a <= K self.

Section Vocabulary.

Context {pandas : Pandas}.

(** The rows one call appends for a non-empty sub-group: the sub-group in
    sorted order, with the first [n] ids of a pattern of [m] rounds. *)
Definition snake_rows (sub_df : list ranked) (ci : list Z) (m : nat)
  : list assigned :=
  set_class (sort_values by_score_desc sub_df)
            (firstn (length sub_df) (blocks ci m)).

(** What one call does once the permutation [ci] is drawn. *)
Definition distribute_with (sub_df : list ranked)
  (acc : list (list assigned)) (ci : list Z) : res (list (list assigned)) :=
  let sorted := sort_values by_score_desc sub_df in
  match snake_loop (length sorted) ci [] (length sorted) with
  | Some p =>
      Ret (acc ++ [set_class sorted
                     (Py.slice None (Some (Z.of_nat (length sorted))) p)])
  | None => Loop
  end.

(** What [run] does with the list of frames the loops leave. *)
Definition finish (r : res (list (list assigned)))
  : res (list assigned) :=
  match r with
  | Ret [] => Abort NoObjectsToConcatenate
  | Ret al => Ret (sort_values by_class_then_score (concat al))
  | Abort e => Abort e
  | Loop => Loop
  end.

(** The row [run] makes of a student of the roster [df]. *)
Definition rank_row (df : list student) (s : student) : ranked :=
  mkRanked s (1 + Z.of_nat (above (score s) (map score df))).

(** The sub-groups in the order the two loops of [run] visit them. *)
Definition all_groups (self : SunshineDistributor) (df : list student)
  : list (list ranked) :=
  concat (map (groups self) (layers self (ranked_frame df))).

End Vocabulary.

(** ** Sample inputs *)

(** A sheet row and a student with an empty origin cell. *)
Definition cell (n g : string) (v : option Z) : cell_row :=
  mkCell n g EmptyString v.

Definition pupil (n g : string) (v : Z) : student :=
  mkStudent n g EmptyString v.

(** Five students with a score and one row without; no origin column. *)
Definition demo_sheet : sheet :=
  {| has_origin_column := false;
     sheet_rows :=
       [ cell "s1" "男" (Some 95); cell "s2" "女" (Some 90);
         cell "s3" "男" (Some 85); cell "s0" "女" None;
         cell "s4" "女" (Some 80); cell "s5" "男" (Some 75) ] |}.

(** A sheet where one student's gender is neither of the two literals. *)
Definition odd_sheet : sheet :=
  {| has_origin_column := false;
     sheet_rows := [ cell "a" "男" (Some 90); cell "b" "M" (Some 80) ] |}.

Definition world_of (draws : list nat) : world :=
  {| rng := draws; shuffled := [] |}.

(** Two states of the generator whose draws differ and agree modulo 2. *)
Definition demo_world : world := world_of [1; 0; 1; 0]%nat.
Definition demo_world' : world := world_of [3; 2; 5; 4]%nat.

(** Two rows with the same score. *)
Definition tie_a : ranked := mkRanked (pupil "a" "男" 90) 1.
Definition tie_b : ranked := mkRanked (pupil "b" "男" 90) 1.

(** A sub-group of eight rows; [g3] and [g4] have the same score. *)
Definition demo_group : list ranked :=
  map (fun p => mkRanked (pupil (fst p) "男" (snd p)) 1)
      [ ("g1", 70); ("g2", 95); ("g3", 80); ("g4", 80);
        ("g5", 60); ("g6", 85); ("g7", 90); ("g8", 65) ]%string.

(** A frame whose classes differ in size: one student in class 1, two in
    class 2. *)
Definition uneven_frame : Analysis.frame :=
  {| Analysis.has_score := true; Analysis.has_rural := false;
     Analysis.rows :=
       [ Analysis.mkRow 1 "男" 90 EmptyString;
         Analysis.mkRow 2 "女" 60 EmptyString;
         Analysis.mkRow 2 "男" 60 EmptyString ] |}.

(** * Further code *)

(** ** [load_data], from the path on *)

Module Loader.

Import Sunshine.

(** A workbook as [pd.read_excel] returns it: the header and the rows.  The
    cells of a row are read only for the columns of the header. *)
Record workbook : Type := mkBook {
  columns : list string;
  book_rows : list cell_row
}.

(** What is at [file_path]: nothing, a file [pd.read_excel] raises on, or a
    workbook. *)
Inductive file : Type :=
| Absent
| Unreadable
| Book (wb : workbook).

(** The object with the attribute [required_cols]. *)
Record loader : Type := mkLoader {
  obj : SunshineDistributor;
  required_cols : list string
}.

(** [SunshineDistributor(n_classes, top_n_per_class, bottom_n_per_class)]. *)
Definition new (n_classes top_n_per_class bottom_n_per_class : Z) : loader :=
  {| obj := init n_classes top_n_per_class bottom_n_per_class;
     required_cols := ["姓名"; "性别"; "总分"]%string |}.

(** The three places where [load_data] calls [sys.exit(1)], by message. *)
Inductive exit : Type :=
| FileNotFound
| MissingColumns (missing required : list string)
| ReadError.

(** The outcome of [load_data]: the object as the call leaves it, the
    columns of the returned frame, [original_len] and the frame. *)
Inductive loaded : Type :=
| Frame (self : loader) (cols : list string) (original_len : nat)
        (df : list student)
| SysExit (e : exit).

(** [col in df.columns]. *)
Definition mem (col : string) (cols : list string) : bool :=
  existsb (String.eqb col) cols.

Definition sheet_of (wb : workbook) : sheet :=
  {| has_origin_column := mem "城乡" (columns wb);
     sheet_rows := book_rows wb |}.

(** [load_data(self, file_path)].  [sys.exit] inside the [try] is not an
    [Exception] and passes the handler; an exception of [pd.read_excel] is
    caught and becomes the third exit. *)
Definition load_data (self : loader) (f : file) : loaded :=
  match f with
  | Absent => SysExit FileNotFound
  | Unreadable => SysExit ReadError
  | Book wb =>
      let self :=
        if mem "城乡" (columns wb) then
          {| obj := {| K := K (obj self); top_N := top_N (obj self);
                       bot_N := bot_N (obj self); has_rural := true |};
             required_cols := required_cols self ++ ["城乡"%string] |}
        else self in
      let missing_cols :=
        filter (fun col => negb (mem col (columns wb))) (required_cols self) in
      match missing_cols with
      | _ :: _ => SysExit (MissingColumns missing_cols (required_cols self))
      | [] =>
          let cols :=
            filter (fun col => negb (mem col ["班级"; "年级排名"]%string))
                   (columns wb) in
          Frame self cols (length (book_rows wb)) (dropna (book_rows wb))
      end
  end.

End Loader.

(** ** The statistics of [export_excel] *)

Module ExportExcel.

Import Sunshine.

Local Open Scope Q_scope.

Definition counted (p : assigned -> bool) (x : list assigned) : Q :=
  inject_Z (Z.of_nat (length (filter p x))).

Definition is_boy (a : assigned) : bool := is_male (assigned_row a).
Definition is_girl (a : assigned) : bool := is_female (assigned_row a).
Definition from_town (a : assigned) : bool := is_urban (assigned_row a).
Definition from_country (a : assigned) : bool := is_rural (assigned_row a).

(** One row of [stats]: the aggregates of the rows [x] of one class, the
    derived columns, rounded, in the order [final_cols].  [count] of the
    name column counts the name cells that are filled; names are strings
    here, that is, the sheet has no empty name cell, and [count] is the
    number of rows. *)
Definition stats_row (has_rural : bool) (x : list assigned)
  : Analysis.series :=
  let total := inject_Z (Z.of_nat (length x)) in
  let average :=
    Analysis.round2 (Analysis.mean (map (fun a => inject_Z (ascore a)) x)) in
  let boys := counted is_boy x in
  [ ("总人数"%string, total); ("平均分"%string, average);
    ("男生数"%string, boys); ("女生数"%string, total - boys) ]
  ++ (if has_rural
      then [ ("城区数"%string, counted from_town x);
             ("乡下数"%string, total - counted from_town x) ]
      else []).

(** The keys of [df.groupby(class)]. *)
Definition class_keys (df : list assigned) : list Z :=
  Analysis.dedup_sorted (isort Z.leb (map class_id df)).

Definition of_class (c : Z) (df : list assigned) : list assigned :=
  filter (fun a => (class_id a =? c)%Z) df.

(** [stats] as [export_excel] writes it to the second sheet. *)
Definition stats (has_rural : bool) (df : list assigned)
  : list (Z * Analysis.series) :=
  map (fun c => (c, stats_row has_rural (of_class c df))) (class_keys df).

End ExportExcel.

(** * Vocabulary of the further properties *)

(** Number of rows of class [c] whose student passes the filter [p]. *)
Definition count_in (c : Z) (p : ranked -> bool) (rows : list assigned) : Z :=
  Z.of_nat
    (length (filter (fun a => (class_id a =? c) && p (assigned_row a)) rows)).

(** The order of the final output: class ascending, then score
    descending. *)
Definition class_then_score (a b : assigned) : Prop :=
  class_id a < class_id b
  \/ (class_id a = class_id b /\ ascore b <= ascore a).

(** Position [i] of the snake, as an index into the base permutation of
    [k] ids: forward for the first half of a round, backward for the
    second. *)
Definition snake_index (k i : nat) : nat :=
  let r := (i mod (2 * k))%nat in
  if (r <? k)%nat then r else (2 * k - 1 - r)%nat.

(** A group all of whose rows pass [p], or none. *)
Definition whole_or_none (p : ranked -> bool) (g : list ranked) : Prop :=
  Forall (fun r => p r = true) g \/ Forall (fun r => p r = false) g.

(** The rows of a frame the group filters keep. *)
Definition kept (self : SunshineDistributor) (r : ranked) : bool :=
  recognised (has_rural self) (ranked_student r).

(** A group with at least one row. *)
Definition occupied (g : list ranked) : bool :=
  match g with [] => false | _ :: _ => true end.

(** A student of the frame as a row of the sheet. *)
Definition cell_of (s : student) : cell_row :=
  mkCell (name s) (gender s) (origin s) (Some (score s)).

Definition numeric (c : cell_row) : bool :=
  match cell_score c with Some _ => true | None => false end.

(** The three columns a new object requires. *)
Definition base_cols : list string := ["姓名"; "性别"; "总分"]%string.

(** The keys of a [groupby]: the values of the column, each once,
    ascending. *)
Definition keys_of (l : list Z) : list Z :=
  Analysis.dedup_sorted (isort Z.leb l).

(** ** Further sample inputs *)

(** A sheet in which no gender cell holds one of the two literals. *)
Definition unknown_sheet : sheet :=
  {| has_origin_column := false;
     sheet_rows := [ cell "a" "M" (Some 90); cell "b" "F" (Some 80) ] |}.

(** Two boys. *)
Definition pair_sheet : sheet :=
  {| has_origin_column := false;
     sheet_rows := [ cell "a" "男" (Some 90); cell "b" "男" (Some 80) ] |}.

(** Five students of a sheet with the origin column. *)
Definition origin_sheet : sheet :=
  {| has_origin_column := true;
     sheet_rows :=
       [ mkCell "t1" "男" "城区" (Some 95); mkCell "t2" "女" "乡下" (Some 90);
         mkCell "t3" "女" "城区" (Some 85); mkCell "t4" "男" "乡下" (Some 80);
         mkCell "t5" "女" "乡下" (Some 75) ] |}.

(** A workbook with the origin column and an old class column, and one
    without the origin column. *)
Definition town_book : Loader.workbook :=
  {| Loader.columns := ["班级"; "姓名"; "性别"; "城乡"; "总分"]%string;
     Loader.book_rows :=
       [ mkCell "a" "男" "城区" (Some 90); mkCell "b" "女" "乡下" None;
         mkCell "c" "女" "乡下" (Some 70) ] |}.

Definition plain_book : Loader.workbook :=
  {| Loader.columns := ["姓名"; "性别"; "总分"]%string;
     Loader.book_rows := sheet_rows demo_sheet |}.

(** * Properties *)

(** ** Slices, ranges and the shuffle *)

Section PyFacts.

Context {A : Type}.

Lemma slice_prefix (n : Z) (l : list A) :
  0 <= n -> Py.slice None (Some n) l = firstn (Z.to_nat n) l.
Proof.
  intros Hn. unfold Py.slice, Py.clamp.
  destruct (Z.ltb_spec n 0) as [?|_]; [lia|].
  rewrite Z.sub_0_r. simpl skipn.
  destruct (Z.le_ge_cases n (Z.of_nat (length l))) as [Hle|Hge].
  - now rewrite Z.min_l.
  - rewrite Z.min_r by assumption. rewrite Nat2Z.id.
    rewrite firstn_all. symmetry. apply firstn_all2. lia.
Qed.

Lemma slice_from (n : Z) (l : list A) :
  0 <= n <= Z.of_nat (length l) ->
  Py.slice (Some n) None l = skipn (Z.to_nat n) l.
Proof.
  intros Hn. unfold Py.slice, Py.clamp.
  destruct (Z.ltb_spec n 0) as [?|_]; [lia|].
  rewrite Z.min_l by lia.
  apply firstn_all2. rewrite length_skipn. lia.
Qed.

Lemma slice_last (b : Z) (l : list A) :
  0 < b <= Z.of_nat (length l) ->
  Py.slice (Some (- b)) None l = skipn (length l - Z.to_nat b) l.
Proof.
  intros Hb. unfold Py.slice, Py.clamp.
  destruct (Z.ltb_spec (- b) 0) as [_|?]; [|lia].
  rewrite Z.max_l by lia.
  replace (Z.to_nat (Z.of_nat (length l) + - b))
    with (length l - Z.to_nat b)%nat by lia.
  apply firstn_all2. rewrite length_skipn. lia.
Qed.

Lemma slice_middle (t b : Z) (l : list A) :
  0 <= t -> 0 < b -> t + b <= Z.of_nat (length l) ->
  Py.slice (Some t) (Some (- b)) l =
  firstn (length l - Z.to_nat b - Z.to_nat t) (skipn (Z.to_nat t) l).
Proof.
  intros Ht Hb Hlen. unfold Py.slice, Py.clamp.
  destruct (Z.ltb_spec t 0) as [?|_]; [lia|].
  destruct (Z.ltb_spec (- b) 0) as [_|?]; [|lia].
  rewrite Z.max_l by lia. rewrite Z.min_l by lia.
  f_equal. lia.
Qed.

Lemma three_pieces (n k : nat) (l : list A) :
  firstn n l ++ firstn k (skipn n l) ++ skipn (n + k) l = l.
Proof.
  rewrite (Nat.add_comm n k), <- skipn_skipn.
  now rewrite !firstn_skipn.
Qed.

(** With a bottom quota of at least one row the three slices of [layers]
    cut the frame into consecutive pieces. *)
Lemma three_slices (t b : Z) (l : list A) :
  0 <= t -> 0 < b -> t + b <= Z.of_nat (length l) ->
  Py.slice None (Some t) l
  ++ Py.slice (Some t) (Some (- b)) l
  ++ Py.slice (Some (- b)) None l = l.
Proof.
  intros Ht Hb Hlen.
  rewrite slice_prefix, slice_middle, slice_last by lia.
  replace (length l - Z.to_nat b)%nat
    with (Z.to_nat t + (length l - Z.to_nat b - Z.to_nat t))%nat at 2 by lia.
  apply three_pieces.
Qed.

Lemma setitem_length (i : nat) (v : A) (l : list A) :
  length (Py.setitem i v l) = length l.
Proof.
  revert i; induction l as [|h t IH]; intros [|i]; simpl; auto.
Qed.

Lemma setitem_nth_same (i : nat) (v : A) (l : list A) :
  (i < length l)%nat -> nth_error (Py.setitem i v l) i = Some v.
Proof.
  revert i; induction l as [|h t IH]; intros [|i] H; simpl in *;
    try lia; auto.
  apply IH. lia.
Qed.

Lemma setitem_nth_other (i j : nat) (v : A) (l : list A) :
  i <> j -> nth_error (Py.setitem i v l) j = nth_error l j.
Proof.
  revert i j; induction l as [|h t IH]; intros [|i] [|j] H; simpl;
    try congruence; auto.
Qed.

(** Overwriting the cell that holds [a] by [b] trades [a] for [b]. *)
Lemma setitem_perm (i : nat) (a b : A) (l : list A) :
  nth_error l i = Some a ->
  Permutation (b :: l) (a :: Py.setitem i b l).
Proof.
  revert i; induction l as [|h t IH]; intros [|i] H; simpl in *;
    try discriminate.
  - injection H as ->. apply perm_swap.
  - apply IH in H.
    etransitivity; [apply perm_swap|].
    etransitivity; [apply perm_skip, H|].
    apply perm_swap.
Qed.

Lemma swap_perm (i j : nat) (x : list A) : Permutation (Py.swap i j x) x.
Proof.
  unfold Py.swap.
  destruct (nth_error x j) as [xj|] eqn:Hj; [|reflexivity].
  destruct (nth_error x i) as [xi|] eqn:Hi; [|reflexivity].
  apply Permutation_cons_inv with (a := xj). symmetry.
  etransitivity; [apply (setitem_perm i xi xj x Hi)|].
  assert (Hlen : (i < length x)%nat) by (apply nth_error_Some; congruence).
  assert (Hj' : nth_error (Py.setitem i xj x) j = Some xj).
  { destruct (Nat.eq_dec i j) as [->|Hne].
    - now apply setitem_nth_same.
    - rewrite setitem_nth_other by assumption. assumption. }
  apply (setitem_perm j xj xi _ Hj').
Qed.

Lemma shuffle_from_perm (i : nat) (x : list A) (g : Random.state) :
  Permutation (fst (Random.shuffle_from i x g)) x.
Proof.
  revert x g; induction i as [|i IH]; intros x g; [reflexivity|].
  cbn [Random.shuffle_from].
  destruct (Random.randbelow (S (S i)) g) as [j g'].
  etransitivity; [apply IH|apply swap_perm].
Qed.

(** [random.shuffle] rearranges its argument. *)
Lemma shuffle_perm (x : list A) (g : Random.state) :
  Permutation (fst (Random.shuffle x g)) x.
Proof. apply shuffle_from_perm. Qed.

End PyFacts.

(** ** The snake pattern *)

Section Snake.

Variable ci : list Z.

Let L : nat := length (block ci).

Lemma block_length : length (block ci) = (2 * length ci)%nat.
Proof. unfold block. rewrite length_app, length_rev. lia. Qed.

Lemma blocks_length (m : nat) : length (blocks ci m) = (m * L)%nat.
Proof.
  induction m as [|m IH]; simpl; [reflexivity|].
  rewrite length_app, IH. fold L. lia.
Qed.

Lemma blocks_add (a b : nat) :
  blocks ci (a + b) = blocks ci a ++ blocks ci b.
Proof.
  induction b as [|b IH].
  - rewrite Nat.add_0_r. simpl. now rewrite app_nil_r.
  - rewrite Nat.add_succ_r. simpl. now rewrite IH, app_assoc.
Qed.

Lemma blocks_front (m : nat) :
  blocks ci (S m) = block ci ++ blocks ci m.
Proof.
  change (S m) with (1 + m)%nat. rewrite blocks_add. reflexivity.
Qed.

(** The loop ends as soon as the pattern covers [n] positions, and then the
    pattern is a whole number of rounds. *)
Lemma snake_loop_blocks (n fuel m : nat) :
  (n <= (m + fuel) * L)%nat ->
  exists m',
    Sunshine.snake_loop fuel ci (blocks ci m) n = Some (blocks ci m')
    /\ (n <= m' * L)%nat.
Proof.
  revert m; induction fuel as [|fuel IH]; intros m Hn; simpl.
  - destruct (Nat.ltb_spec (length (blocks ci m)) n) as [Hlt|Hge].
    + rewrite blocks_length in Hlt. lia.
    + exists m. rewrite blocks_length in Hge. auto.
  - destruct (Nat.ltb_spec (length (blocks ci m)) n) as [Hlt|Hge].
    + rewrite <- app_assoc. change (blocks ci m ++ ci ++ rev ci)
        with (blocks ci (S m)).
      apply IH. lia.
    + exists m. rewrite blocks_length in Hge. auto.
Qed.

(** Fuel [n] is enough whenever there is at least one class id. *)
Lemma snake_loop_enough (n : nat) :
  ci <> [] ->
  exists m,
    Sunshine.snake_loop n ci [] n = Some (blocks ci m) /\ (n <= m * L)%nat.
Proof.
  intros Hci. apply (snake_loop_blocks n n 0).
  assert (0 < length ci)%nat by (destruct ci; simpl; [congruence|lia]).
  unfold L. rewrite block_length. nia.
Qed.

(** The first [n] positions of a long enough pattern: the whole rounds, then
    the beginning of one more. *)
Lemma firstn_blocks (n m : nat) :
  (0 < L)%nat -> (n <= m * L)%nat ->
  firstn n (blocks ci m) =
  blocks ci (n / L) ++ firstn (n mod L) (block ci).
Proof.
  intros HL Hn.
  pose proof (Nat.div_mod_eq n L) as Hdm.
  pose proof (Nat.mod_upper_bound n L ltac:(lia)) as Hr.
  set (q := (n / L)%nat) in *. set (r := (n mod L)%nat) in *.
  assert (Hq : (q <= m)%nat) by nia.
  replace m with (q + (m - q))%nat by lia. rewrite blocks_add.
  replace n with (length (blocks ci q) + r)%nat at 1
    by (rewrite blocks_length; lia).
  rewrite firstn_app_2. f_equal.
  destruct (Nat.eq_dec r 0) as [->|Hr0]; [reflexivity|].
  assert (Hlt : (q < m)%nat) by nia.
  replace (m - q)%nat with (S (m - q - 1)) by lia.
  rewrite blocks_front, firstn_app.
  replace (r - length (block ci))%nat with 0%nat by (fold L; lia).
  simpl. now rewrite app_nil_r.
Qed.

Lemma nth_error_blocks (i m : nat) :
  (0 < L)%nat -> (i < m * L)%nat ->
  nth_error (blocks ci m) i = nth_error (block ci) (i mod L).
Proof.
  intros HL Hi.
  pose proof (Nat.div_mod_eq i L) as Hdm.
  pose proof (Nat.mod_upper_bound i L ltac:(lia)) as Hr.
  set (q := (i / L)%nat) in *. set (r := (i mod L)%nat) in *.
  assert (Hq : (q < m)%nat) by nia.
  replace m with (q + S (m - q - 1))%nat by lia.
  rewrite blocks_add, blocks_front.
  rewrite nth_error_app2 by (rewrite blocks_length; lia).
  rewrite blocks_length.
  replace (i - q * L)%nat with r by lia.
  apply nth_error_app1. fold L. lia.
Qed.

(** A window of one round's length anywhere in the pattern is a round
    rotated. *)
Lemma window_blocks (s m : nat) :
  (0 < L)%nat -> (s + L <= m * L)%nat ->
  firstn L (skipn s (blocks ci m)) =
  skipn (s mod L) (block ci) ++ firstn (s mod L) (block ci).
Proof.
  intros HL Hs.
  pose proof (Nat.div_mod_eq s L) as Hdm.
  pose proof (Nat.mod_upper_bound s L ltac:(lia)) as Hr.
  set (q := (s / L)%nat) in *. set (r := (s mod L)%nat) in *.
  assert (Hq : (q < m)%nat) by nia.
  replace m with (q + S (m - q - 1))%nat by lia.
  rewrite blocks_add, blocks_front.
  rewrite skipn_app, blocks_length.
  rewrite (skipn_all2 (blocks ci q)) by (rewrite blocks_length; lia).
  replace (s - q * L)%nat with r by lia. simpl app.
  rewrite skipn_app.
  replace (r - length (block ci))%nat with 0%nat by (fold L; lia).
  simpl skipn. rewrite firstn_app, length_skipn. fold L.
  rewrite (firstn_all2 (skipn r (block ci)))
    by (rewrite length_skipn; fold L; lia).
  f_equal. replace (L - (L - r))%nat with r by lia.
  destruct (Nat.eq_dec r 0) as [->|Hr0]; [reflexivity|].
  assert (Hlt : (q + 1 < m)%nat) by nia.
  replace (m - q - 1)%nat with (S (m - q - 2)) by lia.
  rewrite blocks_front, firstn_app.
  replace (r - length (block ci))%nat with 0%nat by (fold L; lia).
  simpl. now rewrite app_nil_r.
Qed.

End Snake.

Lemma snake_loop_diverges (fuel n : nat) :
  (0 < n)%nat -> Sunshine.snake_loop fuel [] [] n = None.
Proof.
  intros Hn. induction fuel as [|fuel IH]; simpl.
  - destruct n; [lia|reflexivity].
  - destruct n; [lia|]. simpl in IH. exact IH.
Qed.

(** ** Counting class ids in the pattern *)

Lemma count_firstn_le (c : Z) (r : nat) (l : list Z) :
  (count (firstn r l) c <= count l c)%nat.
Proof.
  rewrite <- (firstn_skipn r l) at 2. rewrite count_occ_app. lia.
Qed.

Lemma count_block (c : Z) (ci : list Z) :
  count (block ci) c = (2 * count ci c)%nat.
Proof. unfold block. rewrite count_occ_app, count_occ_rev. lia. Qed.

Lemma count_blocks (c : Z) (ci : list Z) (m : nat) :
  count (blocks ci m) c = (m * (2 * count ci c))%nat.
Proof.
  induction m as [|m IH]; simpl; [reflexivity|].
  rewrite count_occ_app, IH, count_block. lia.
Qed.

(** In the first [r] positions of a round an id of the base permutation
    occurs at most once on the way forward, and once more at most on the
    way back. *)
Lemma count_partial_block (c : Z) (ci : list Z) (r : nat) :
  count ci c = 1%nat ->
  ((r <= length ci)%nat -> (count (firstn r (block ci)) c <= 1)%nat)
  /\ ((length ci <= r)%nat ->
      (1 <= count (firstn r (block ci)) c <= 2)%nat).
Proof.
  intros Hc. unfold block. rewrite firstn_app. split; intros Hr.
  - replace (r - length ci)%nat with 0%nat by lia. simpl.
    rewrite app_nil_r. rewrite <- Hc. apply count_firstn_le.
  - rewrite firstn_all2 by lia. rewrite count_occ_app, Hc.
    pose proof (count_firstn_le c (r - length ci) (rev ci)) as H.
    rewrite count_occ_rev, Hc in H. lia.
Qed.

(** ** The base permutation *)

Lemma range_length (a b : Z) : length (Py.range a b) = Z.to_nat (b - a).
Proof. unfold Py.range. now rewrite length_map, length_seq. Qed.

Lemma range_In (a b c : Z) : In c (Py.range a b) <-> a <= c < b.
Proof.
  unfold Py.range. rewrite in_map_iff. split.
  - intros (i & <- & Hi). apply in_seq in Hi. lia.
  - intros Hc. exists (Z.to_nat (c - a)). split; [lia|].
    apply in_seq. lia.
Qed.

Lemma range_NoDup (a b : Z) : NoDup (Py.range a b).
Proof.
  unfold Py.range. apply Finite.Injective_map_NoDup.
  - intros i j H. lia.
  - apply seq_NoDup.
Qed.

Lemma base_permutation_perm (k : Z) (g : Random.state) :
  Permutation (base_permutation k g) (Py.range 1 (k + 1)).
Proof. apply shuffle_perm. Qed.

Lemma base_permutation_length (k : Z) (g : Random.state) :
  length (base_permutation k g) = Z.to_nat k.
Proof.
  rewrite (Permutation_length (base_permutation_perm k g)), range_length.
  f_equal. lia.
Qed.

Lemma base_permutation_In (k : Z) (g : Random.state) (c : Z) :
  In c (base_permutation k g) <-> 1 <= c <= k.
Proof.
  split; intros H.
  - apply (Permutation_in _ (base_permutation_perm k g)) in H.
    apply range_In in H. lia.
  - apply (Permutation_in _ (Permutation_sym (base_permutation_perm k g))).
    apply range_In. lia.
Qed.

Lemma base_permutation_count (k : Z) (g : Random.state) (c : Z) :
  1 <= c <= k -> count (base_permutation k g) c = 1%nat.
Proof.
  intros Hc.
  apply NoDup_count_occ'.
  - apply (Permutation_NoDup (Permutation_sym (base_permutation_perm k g))).
    apply range_NoDup.
  - now apply base_permutation_In.
Qed.

(** ** One call of the distributor *)

Lemma set_class_ids (rows : list ranked) (ids : list Z) :
  length rows = length ids -> class_ids (set_class rows ids) = ids.
Proof.
  unfold class_ids, set_class. rewrite map_map. simpl.
  revert ids; induction rows as [|r t IH]; intros [|c ids] H; simpl in *;
    try discriminate; auto.
  f_equal. apply IH. lia.
Qed.

Lemma set_class_rows (rows : list ranked) (ids : list Z) :
  length rows = length ids -> map assigned_row (set_class rows ids) = rows.
Proof.
  unfold set_class. rewrite map_map. simpl.
  revert ids; induction rows as [|r t IH]; intros [|c ids] H; simpl in *;
    try discriminate; auto.
  f_equal. apply IH. lia.
Qed.

Section Distributor.

Context {pandas : Pandas}.

Variable self : SunshineDistributor.

Lemma distribute_empty (acc : list (list assigned)) (w : world) :
  _distribute_sub_group self [] acc w = (Ret acc, w).
Proof. reflexivity. Qed.

(** With at least one class the call returns: it draws one permutation and
    appends one frame. *)
Lemma distribute_nonempty (sub_df : list ranked)
  (acc : list (list assigned)) (w : world) :
  1 <= K self -> sub_df <> [] ->
  let ci := base_permutation (K self) (rng w) in
  exists m,
    (length sub_df <= m * length (block ci))%nat
    /\ _distribute_sub_group self sub_df acc w =
       (Ret (acc ++ [snake_rows sub_df ci m]),
        {| rng := snd (Random.shuffle (Py.range 1 (K self + 1)) (rng w));
           shuffled := shuffled w ++ [ci] |}).
Proof.
  intros HK Hne ci.
  assert (Hci : ci <> []).
  { intros E. pose proof (base_permutation_length (K self) (rng w)) as Hl.
    fold ci in Hl. rewrite E in Hl. simpl in Hl. lia. }
  assert (Hlen : length (sort_values by_score_desc sub_df) = length sub_df)
    by apply Permutation_length, sort_values_perm.
  destruct (snake_loop_enough ci (length sub_df) Hci) as (m & Hloop & Hm).
  exists m. split; [exact Hm|].
  destruct sub_df as [|r t]; [congruence|].
  unfold _distribute_sub_group, bind, shuffle, snake_while, ret.
  set (sub := r :: t) in *.
  unfold ci, base_permutation in *.
  destruct (Random.shuffle (Py.range 1 (K self + 1)) (rng w)) as [x g'].
  simpl fst in *. simpl snd. rewrite Hlen, Hloop.
  rewrite slice_prefix by lia. rewrite Nat2Z.id. reflexivity.
Qed.

Lemma snake_rows_ids (sub_df : list ranked) (ci : list Z) (m : nat) :
  (length sub_df <= m * length (block ci))%nat ->
  class_ids (snake_rows sub_df ci m) = firstn (length sub_df) (blocks ci m).
Proof.
  intros Hm. apply set_class_ids.
  rewrite (Permutation_length (sort_values_perm _ _ _)).
  rewrite length_firstn, blocks_length. lia.
Qed.

Lemma snake_rows_rows (sub_df : list ranked) (ci : list Z) (m : nat) :
  (length sub_df <= m * length (block ci))%nat ->
  map assigned_row (snake_rows sub_df ci m) =
  sort_values by_score_desc sub_df.
Proof.
  intros Hm. apply set_class_rows.
  rewrite (Permutation_length (sort_values_perm _ _ _)).
  rewrite length_firstn, blocks_length. lia.
Qed.

End Distributor.

Lemma count_positive_length (c : Z) (ci : list Z) :
  count ci c = 1%nat -> (0 < length (block ci))%nat.
Proof.
  intros Hc. rewrite block_length. destruct ci; simpl in *; [discriminate|lia].
Qed.

(** Any two ids of the base permutation are met equally often, up to one,
    in a truncated pattern. *)
Lemma snake_counts_balanced (ci : list Z) (n m : nat) (c1 c2 : Z) :
  count ci c1 = 1%nat -> count ci c2 = 1%nat ->
  (n <= m * length (block ci))%nat ->
  Z.abs (Z.of_nat (count (firstn n (blocks ci m)) c1)
         - Z.of_nat (count (firstn n (blocks ci m)) c2)) <= 1.
Proof.
  intros H1 H2 Hn.
  pose proof (count_positive_length c1 ci H1) as HL.
  rewrite (firstn_blocks ci n m HL Hn).
  rewrite !count_occ_app, !count_blocks, H1, H2.
  set (r := (n mod length (block ci))%nat).
  assert (Hr : (r < length (block ci))%nat)
    by (apply Nat.mod_upper_bound; lia).
  destruct (count_partial_block c1 ci r H1) as [Ha1 Hb1].
  destruct (count_partial_block c2 ci r H2) as [Ha2 Hb2].
  destruct (Nat.le_ge_cases r (length ci)) as [Hle|Hge].
  - specialize (Ha1 Hle). specialize (Ha2 Hle). lia.
  - specialize (Hb1 Hge). specialize (Hb2 Hge). lia.
Qed.

(** C1.  For every sub-group and every class count [K >= 1] the
    distributor returns, the rows it appends are the rows of the sub-group,
    and the numbers of them given to any two class ids of [1..K] differ by
    at most one, whatever the length of the sub-group. *)
Theorem C1_snake_headcounts_differ_by_at_most_one
  (pandas : Pandas) (self : SunshineDistributor) (sub_df : list ranked)
  (acc : list (list assigned)) (w : world) :
  1 <= K self ->
  exists (out : list (list assigned)) (w' : world),
    _distribute_sub_group self sub_df acc w = (Ret (acc ++ out), w')
    /\ Permutation (map assigned_row (concat out)) sub_df
    /\ forall c1 c2 : Z,
         1 <= c1 <= K self -> 1 <= c2 <= K self ->
         Z.abs (headcount c1 (concat out) - headcount c2 (concat out)) <= 1.
Proof.
  intros HK.
  destruct sub_df as [|r t] eqn:Esub.
  - exists [], w. rewrite app_nil_r. repeat split; try reflexivity.
    intros c1 c2 _ _. unfold headcount. simpl. lia.
  - rewrite <- Esub.
    assert (Hne : sub_df <> []) by (rewrite Esub; discriminate).
    destruct (distribute_nonempty self sub_df acc w HK Hne) as (m & Hm & Hrun).
    eexists [_], _. split; [exact Hrun|]. simpl concat. rewrite app_nil_r.
    split.
    + rewrite snake_rows_rows by exact Hm. apply sort_values_perm.
    + intros c1 c2 Hc1 Hc2. unfold headcount.
      rewrite snake_rows_ids by exact Hm.
      apply snake_counts_balanced; auto using base_permutation_count.
Qed.

(** ** An implementation of the sorting contract *)

Section InsertionSort.

Context {A : Type} (le : A -> A -> bool).

Lemma insert_by_perm (x : A) (l : list A) :
  Permutation (insert_by le x l) (x :: l).
Proof.
  induction l as [|y t IH]; simpl; [reflexivity|].
  destruct (le x y); [reflexivity|].
  etransitivity; [apply perm_skip, IH|]. apply perm_swap.
Qed.

Lemma isort_perm (l : list A) : Permutation (isort le l) l.
Proof.
  induction l as [|x t IH]; simpl; [reflexivity|].
  etransitivity; [apply insert_by_perm|]. now apply perm_skip.
Qed.

Hypothesis le_total : total le.
Hypothesis le_trans : transitive le.

Lemma insert_by_sorted (x : A) (l : list A) :
  StronglySorted (fun a b => le a b = true) l ->
  StronglySorted (fun a b => le a b = true) (insert_by le x l).
Proof.
  induction 1 as [|y t Hs IH Hy]; simpl.
  - repeat constructor.
  - destruct (le x y) eqn:Hxy.
    + constructor; [now constructor|].
      constructor; [exact Hxy|].
      eapply Forall_impl; [|exact Hy].
      intros z Hz. eapply le_trans; eassumption.
    + constructor; [exact IH|].
      apply (Permutation_Forall (Permutation_sym (insert_by_perm x t))).
      constructor; [|exact Hy].
      destruct (le_total x y) as [H|H]; congruence.
Qed.

Lemma isort_sorted (l : list A) :
  StronglySorted (fun a b => le a b = true) (isort le l).
Proof.
  induction l as [|x t IH]; simpl; [constructor|].
  now apply insert_by_sorted.
Qed.

End InsertionSort.

(** A stable [sort_values] (what [kind='stable'] would give). *)
Definition stable_pandas : Pandas := {|
  sort_values := @isort;
  sort_values_perm := @isort_perm;
  sort_values_sorted := fun A le l Ht Hr => @isort_sorted A le Ht Hr l
|}.

(** ** Windows and folds of the assignment sequence *)

Lemma window_of_prefix {A : Type} (len s n : nat) (l : list A) :
  (s + len <= n)%nat ->
  firstn len (skipn s (firstn n l)) = firstn len (skipn s l).
Proof.
  intros H. rewrite skipn_firstn_comm, firstn_firstn.
  f_equal. lia.
Qed.

(** Every window of one round's length holds every id of the base
    permutation twice. *)
Lemma snake_window_count (ci : list Z) (s n m : nat) (c : Z) :
  count ci c = 1%nat ->
  (s + length (block ci) <= n)%nat -> (n <= m * length (block ci))%nat ->
  count (firstn (length (block ci)) (skipn s (firstn n (blocks ci m)))) c
  = 2%nat.
Proof.
  intros Hc Hs Hn.
  pose proof (count_positive_length c ci Hc) as HL.
  rewrite window_of_prefix by exact Hs.
  rewrite window_blocks by lia.
  rewrite count_occ_app, Nat.add_comm, <- count_occ_app, firstn_skipn.
  rewrite count_block, Hc. reflexivity.
Qed.

(** C2.  In the assignment sequence of a sub-group (the class ids of its
    rows in rank order), every window of [2K] consecutive positions inside
    the sub-group holds each class id of [1..K] exactly twice. *)
Theorem C2_every_window_of_2K_holds_each_class_twice
  (pandas : Pandas) (self : SunshineDistributor) (sub_df : list ranked)
  (acc : list (list assigned)) (w : world) :
  1 <= K self ->
  exists (out : list (list assigned)) (w' : world),
    _distribute_sub_group self sub_df acc w = (Ret (acc ++ out), w')
    /\ length (class_ids (concat out)) = length sub_df
    /\ forall (s : nat) (c : Z),
         1 <= c <= K self ->
         Z.of_nat s + 2 * K self <= Z.of_nat (length sub_df) ->
         count (firstn (Z.to_nat (2 * K self))
                       (skipn s (class_ids (concat out)))) c = 2%nat.
Proof.
  intros HK.
  destruct sub_df as [|r t] eqn:Esub.
  - exists [], w. rewrite app_nil_r. repeat split; try reflexivity.
    intros s c _ Hs. simpl length in Hs. lia.
  - rewrite <- Esub.
    assert (Hne : sub_df <> []) by (rewrite Esub; discriminate).
    destruct (distribute_nonempty self sub_df acc w HK Hne) as (m & Hm & Hrun).
    eexists [_], _. split; [exact Hrun|]. simpl concat. rewrite app_nil_r.
    rewrite snake_rows_ids by exact Hm.
    set (ci := base_permutation (K self) (rng w)) in *.
    assert (HL : length (block ci) = Z.to_nat (2 * K self)).
    { rewrite block_length. unfold ci. rewrite base_permutation_length. lia. }
    split.
    + rewrite length_firstn, blocks_length. lia.
    + intros s c Hc Hs. rewrite <- HL.
      apply snake_window_count; [now apply base_permutation_count|lia|exact Hm].
Qed.

Lemma nth_error_last {A : Type} (d : A) (l : list A) :
  l <> [] -> nth_error l (length l - 1) = Some (last l d).
Proof.
  induction l as [|x t IH]; intros H; [congruence|].
  destruct t as [|y t']; [reflexivity|].
  change (last (x :: y :: t') d) with (last (y :: t') d).
  rewrite <- IH by discriminate. simpl. now rewrite Nat.sub_0_r.
Qed.

Lemma nth_error_hd {A : Type} (d : A) (l : list A) :
  l <> [] -> nth_error l 0 = Some (hd d l).
Proof. destruct l; [congruence|reflexivity]. Qed.

Section Folds.

Variable ci : list Z.
Hypothesis ci_nonempty : ci <> [].

Let k : nat := length ci.

Lemma k_positive : (0 < k)%nat.
Proof. unfold k. destruct ci; simpl; [congruence|lia]. Qed.

(** The four positions of a round next to its two folds. *)
Lemma block_forward_end :
  nth_error (block ci) (k - 1) = Some (last ci 0).
Proof.
  pose proof k_positive. unfold block.
  rewrite nth_error_app1 by (fold k; lia). now apply nth_error_last.
Qed.

Lemma block_backward_start :
  nth_error (block ci) k = Some (last ci 0).
Proof.
  pose proof k_positive. unfold block.
  rewrite nth_error_app2 by (fold k; lia). fold k. rewrite Nat.sub_diag.
  rewrite nth_error_rev. fold k.
  destruct (Nat.ltb_spec 0 k); [|lia]. now apply nth_error_last.
Qed.

Lemma block_backward_end :
  nth_error (block ci) (2 * k - 1) = Some (hd 0 ci).
Proof.
  pose proof k_positive. unfold block.
  rewrite nth_error_app2 by (fold k; lia). fold k.
  rewrite nth_error_rev. fold k.
  destruct (Nat.ltb_spec (2 * k - 1 - k) k); [|lia].
  replace (k - S (2 * k - 1 - k))%nat with 0%nat by lia.
  now apply nth_error_hd.
Qed.

Lemma block_forward_start :
  nth_error (block ci) 0 = Some (hd 0 ci).
Proof.
  pose proof k_positive. unfold block.
  rewrite nth_error_app1 by (fold k; lia). now apply nth_error_hd.
Qed.

(** Position [q * 2k + r] of the truncated pattern is position [r] of a
    round. *)
Lemma nth_error_snake (n m q r : nat) :
  (n <= m * length (block ci))%nat ->
  (r < 2 * k)%nat -> (q * (2 * k) + r < n)%nat ->
  nth_error (firstn n (blocks ci m)) (q * (2 * k) + r) =
  nth_error (block ci) r.
Proof.
  intros Hm Hr Hi.
  pose proof (block_length ci) as HL. fold k in HL.
  rewrite nth_error_firstn.
  destruct (Nat.ltb_spec (q * (2 * k) + r) n); [|lia].
  rewrite nth_error_blocks by lia. f_equal.
  rewrite HL. symmetry. apply Nat.mod_unique with (q := q); lia.
Qed.

End Folds.

(** C9.  At every fold of the snake the two neighbouring positions carry
    the same class id: positions [2jK+K-1] and [2jK+K] both carry the last
    id of the base permutation, and for [j >= 1] positions [2jK-1] and [2jK]
    both carry its first id.  Positions are 0-based ranks in the sub-group;
    the base permutation is the one the call draws and records in the
    trace. *)
Theorem C9_fold_neighbours_share_a_class
  (pandas : Pandas) (self : SunshineDistributor) (sub_df : list ranked)
  (acc : list (list assigned)) (w : world) :
  1 <= K self ->
  let ci := base_permutation (K self) (rng w) in
  let k := Z.to_nat (K self) in
  exists (out : list (list assigned)) (w' : world),
    _distribute_sub_group self sub_df acc w = (Ret (acc ++ out), w')
    /\ (sub_df <> [] -> shuffled w' = shuffled w ++ [ci])
    /\ forall j : nat,
         ((2 * j * k + k < length sub_df)%nat ->
          nth_error (class_ids (concat out)) (2 * j * k + k - 1)
            = Some (last ci 0)
          /\ nth_error (class_ids (concat out)) (2 * j * k + k)
            = Some (last ci 0))
         /\ ((1 <= j)%nat -> (2 * j * k < length sub_df)%nat ->
             nth_error (class_ids (concat out)) (2 * j * k - 1)
               = Some (hd 0 ci)
             /\ nth_error (class_ids (concat out)) (2 * j * k)
               = Some (hd 0 ci)).
Proof.
  intros HK ci k.
  destruct sub_df as [|r t] eqn:Esub.
  - exists [], w. rewrite app_nil_r.
    split; [reflexivity|]. split; [congruence|].
    intros j. simpl length. split; intros; lia.
  - rewrite <- Esub.
    assert (Hne : sub_df <> []) by (rewrite Esub; discriminate).
    destruct (distribute_nonempty self sub_df acc w HK Hne) as (m & Hm & Hrun).
    fold ci in Hm, Hrun.
    eexists [_], _. split; [exact Hrun|]. simpl concat. rewrite app_nil_r.
    rewrite snake_rows_ids by exact Hm.
    split; [reflexivity|].
    assert (Hk : length ci = k) by apply base_permutation_length.
    assert (Hci : ci <> []).
    { intros E. rewrite E in Hk. simpl in Hk. lia. }
    intros j. split.
    + intros Hj. split.
      * replace (2 * j * k + k - 1)%nat
          with (j * (2 * length ci) + (length ci - 1))%nat by (rewrite Hk; lia).
        rewrite nth_error_snake by (rewrite ?Hk; lia).
        now apply block_forward_end.
      * replace (2 * j * k + k)%nat
          with (j * (2 * length ci) + length ci)%nat by (rewrite Hk; lia).
        rewrite nth_error_snake by (rewrite ?Hk; lia).
        now apply block_backward_start.
    + intros Hj1 Hj. split.
      * replace (2 * j * k - 1)%nat
          with ((j - 1) * (2 * length ci) + (2 * length ci - 1))%nat
          by (rewrite Hk; nia).
        rewrite nth_error_snake by (rewrite ?Hk; nia).
        now apply block_backward_end.
      * replace (2 * j * k)%nat
          with (j * (2 * length ci) + 0)%nat by (rewrite Hk; lia).
        rewrite nth_error_snake by (rewrite ?Hk; lia).
        now apply block_forward_start.
Qed.

(** ** The loop over layers and groups *)

Section Loops.

Context {pandas : Pandas}.

Variable self : SunshineDistributor.

Lemma distribute_unfold (sub_df : list ranked)
  (acc : list (list assigned)) (w : world) :
  sub_df <> [] ->
  _distribute_sub_group self sub_df acc w =
  (distribute_with sub_df acc (base_permutation (K self) (rng w)),
   {| rng := snd (Random.shuffle (Py.range 1 (K self + 1)) (rng w));
      shuffled := shuffled w ++ [base_permutation (K self) (rng w)] |}).
Proof.
  intros Hne. destruct sub_df as [|r t]; [congruence|].
  unfold _distribute_sub_group, distribute_with, bind, shuffle, snake_while,
    ret, base_permutation.
  destruct (Random.shuffle (Py.range 1 (K self + 1)) (rng w)) as [x g'].
  simpl fst. simpl snd.
  destruct (snake_loop _ x [] _); reflexivity.
Qed.

(** Without a class id the loop of a non-empty sub-group does not end. *)
Lemma distribute_without_classes (sub_df : list ranked)
  (acc : list (list assigned)) (w : world) :
  K self <= 0 -> sub_df <> [] ->
  fst (_distribute_sub_group self sub_df acc w) = Loop.
Proof.
  intros HK Hne. rewrite distribute_unfold by exact Hne. simpl fst.
  unfold distribute_with.
  pose proof (base_permutation_length (K self) (rng w)) as Hl.
  destruct (base_permutation (K self) (rng w)) as [|c ci];
    [|simpl in Hl; lia].
  rewrite snake_loop_diverges; [reflexivity|].
  rewrite (Permutation_length (sort_values_perm _ by_score_desc sub_df)).
  destruct sub_df; [congruence|simpl; lia].
Qed.

(** The two nested loops of [run] visit the groups of all layers in
    order. *)
Lemma for_each_app {A S : Type} (body : A -> S -> M S) (l1 l2 : list A)
  (s : S) (w : world) :
  for_each body (l1 ++ l2) s w =
  match for_each body l1 s w with
  | (Ret s', w') => for_each body l2 s' w'
  | (Abort e, w') => (Abort e, w')
  | (Loop, w') => (Loop, w')
  end.
Proof.
  revert s w; induction l1 as [|a t IH]; intros s w; simpl.
  - reflexivity.
  - unfold bind. destruct (body a s w) as [[s'| |] w']; auto.
Qed.

Lemma for_each_nested {A B S : Type} (body : B -> S -> M S)
  (f : A -> list B) (l : list A) (s : S) (w : world) :
  for_each (fun a acc => for_each body (f a) acc) l s w =
  for_each body (concat (map f l)) s w.
Proof.
  revert s w; induction l as [|a t IH]; intros s w; simpl; [reflexivity|].
  rewrite for_each_app. unfold bind.
  destruct (for_each body (f a) s w) as [[s'| |] w']; auto.
Qed.

(** The trace of permutations only grows. *)
Lemma for_each_trace_grows (gs : list (list ranked))
  (acc : list (list assigned)) (w : world) :
  exists rest,
    shuffled (snd (for_each (_distribute_sub_group self) gs acc w))
    = shuffled w ++ rest.
Proof.
  revert acc w; induction gs as [|g gs IH]; intros acc w; simpl.
  - exists []. now rewrite app_nil_r.
  - unfold bind. destruct g as [|r t].
    + rewrite distribute_empty. apply IH.
    + rewrite distribute_unfold by discriminate.
      destruct (distribute_with (r :: t) acc _) as [acc'| |].
      * match goal with |- context [for_each _ gs acc' ?w0] =>
          destruct (IH acc' w0) as [rest Hrest] end.
        rewrite Hrest. simpl shuffled. rewrite <- app_assoc.
        eexists. reflexivity.
      * simpl. eexists. reflexivity.
      * simpl. eexists. reflexivity.
Qed.

(** The loop never exits: it returns or it does not end. *)
Lemma for_each_no_abort (gs : list (list ranked))
  (acc : list (list assigned)) (w : world) (e : error) :
  fst (for_each (_distribute_sub_group self) gs acc w) <> Abort e.
Proof.
  revert acc w; induction gs as [|g gs IH]; intros acc w; simpl.
  - discriminate.
  - unfold bind. destruct g as [|r t].
    + rewrite distribute_empty. apply IH.
    + rewrite distribute_unfold by discriminate.
      unfold distribute_with.
      destruct (snake_loop _ _ [] _); [apply IH|discriminate].
Qed.

(** Two runs of the loop that drew the same permutations end alike. *)
Lemma for_each_deterministic (gs : list (list ranked))
  (acc : list (list assigned)) (w1 w2 : world) :
  shuffled w1 = shuffled w2 ->
  shuffled (snd (for_each (_distribute_sub_group self) gs acc w1))
  = shuffled (snd (for_each (_distribute_sub_group self) gs acc w2)) ->
  fst (for_each (_distribute_sub_group self) gs acc w1)
  = fst (for_each (_distribute_sub_group self) gs acc w2).
Proof.
  revert acc w1 w2; induction gs as [|g gs IH]; intros acc w1 w2 Hw;
    simpl; [reflexivity|].
  unfold bind. destruct g as [|r t].
  - rewrite !distribute_empty. now apply IH.
  - rewrite !distribute_unfold by discriminate.
    set (p1 := base_permutation (K self) (rng w1)).
    set (p2 := base_permutation (K self) (rng w2)).
    set (w1' := {| rng := _; shuffled := shuffled w1 ++ [p1] |}).
    set (w2' := {| rng := _; shuffled := shuffled w2 ++ [p2] |}).
    intros Hlog.
    assert (Hp : p1 = p2).
    { assert (H1 : exists r1,
                 shuffled (snd (match distribute_with (r :: t) acc p1 with
                                | Ret a => for_each (_distribute_sub_group self) gs a w1'
                                | Abort e => (Abort e, w1')
                                | Loop => (Loop, w1')
                                end)) = shuffled w1 ++ p1 :: r1).
      { destruct (distribute_with (r :: t) acc p1) as [a| |].
        - destruct (for_each_trace_grows gs a w1') as [rest ->].
          exists rest. simpl. now rewrite <- app_assoc.
        - exists []. reflexivity.
        - exists []. reflexivity. }
      assert (H2 : exists r2,
                 shuffled (snd (match distribute_with (r :: t) acc p2 with
                                | Ret a => for_each (_distribute_sub_group self) gs a w2'
                                | Abort e => (Abort e, w2')
                                | Loop => (Loop, w2')
                                end)) = shuffled w2 ++ p2 :: r2).
      { destruct (distribute_with (r :: t) acc p2) as [a| |].
        - destruct (for_each_trace_grows gs a w2') as [rest ->].
          exists rest. simpl. now rewrite <- app_assoc.
        - exists []. reflexivity.
        - exists []. reflexivity. }
      destruct H1 as [r1 H1]. destruct H2 as [r2 H2].
      rewrite H1, H2, Hw in Hlog. apply app_inv_head in Hlog.
      congruence. }
    revert Hlog. subst w1' w2'. rewrite <- Hp.
    destruct (distribute_with (r :: t) acc p1) as [a| |]; intros Hlog;
      try reflexivity.
    apply IH; [simpl; now rewrite Hw|exact Hlog].
Qed.

End Loops.

(** ** The whole allocation *)

Lemma In_blocks (c : Z) (ci : list Z) (m : nat) :
  In c (blocks ci m) -> In c ci.
Proof.
  induction m as [|m IH]; simpl; [tauto|].
  unfold block. rewrite !in_app_iff, <- in_rev. tauto.
Qed.

Lemma filter_perm {A : Type} (f : A -> bool) (l l' : list A) :
  Permutation l l' -> Permutation (filter f l) (filter f l').
Proof.
  induction 1 as [|x l l' _ IH|x y l|l l' l'' _ IH1 _ IH2]; simpl.
  - constructor.
  - destruct (f x); [now constructor|assumption].
  - destruct (f x), (f y); try reflexivity. apply perm_swap.
  - etransitivity; eassumption.
Qed.

Lemma In_firstn {A : Type} (n : nat) (l : list A) (x : A) :
  In x (firstn n l) -> In x l.
Proof.
  intros H. rewrite <- (firstn_skipn n l). apply in_or_app. now left.
Qed.

Lemma In_skipn {A : Type} (n : nat) (l : list A) (x : A) :
  In x (skipn n l) -> In x l.
Proof.
  intros H. rewrite <- (firstn_skipn n l). apply in_or_app. now right.
Qed.

Lemma In_slice {A : Type} (a b : option Z) (l : list A) (x : A) :
  In x (Py.slice a b l) -> In x l.
Proof.
  unfold Py.slice. intros H.
  apply In_firstn in H. eapply In_skipn. exact H.
Qed.

Section Allocation.

Context {pandas : Pandas}.

Variable self : SunshineDistributor.

(** One call, with at least one class. *)
Lemma distribute_call (sub_df : list ranked)
  (acc : list (list assigned)) (w : world) :
  1 <= K self ->
  exists (out : list (list assigned)) (w' : world),
    _distribute_sub_group self sub_df acc w = (Ret (acc ++ out), w')
    /\ Permutation (map assigned_row (concat out)) sub_df
    /\ Forall (in_range self) (concat out)
    /\ (sub_df <> [] -> out <> []).
Proof.
  intros HK.
  destruct sub_df as [|r t] eqn:Esub.
  - exists [], w. rewrite app_nil_r. repeat split; try reflexivity.
    + constructor.
    + congruence.
  - rewrite <- Esub.
    assert (Hne : sub_df <> []) by (rewrite Esub; discriminate).
    destruct (distribute_nonempty self sub_df acc w HK Hne) as (m & Hm & Hrun).
    eexists [_], _. split; [exact Hrun|]. simpl concat. rewrite app_nil_r.
    split; [|split].
    + rewrite snake_rows_rows by exact Hm. apply sort_values_perm.
    + apply Forall_forall. intros a Ha.
      assert (Hin : In (class_id a) (class_ids (snake_rows sub_df
                      (base_permutation (K self) (rng w)) m)))
        by (apply in_map; exact Ha).
      rewrite snake_rows_ids in Hin by exact Hm.
      unfold in_range. apply (base_permutation_In (K self) (rng w)).
      apply In_blocks with (m := m). eapply In_firstn. exact Hin.
    + discriminate.
Qed.

End Allocation.

(** ** Groups and layers *)

Section Partition.

Context {A : Type}.

Lemma filters_cons (ps : list (A -> bool)) (x : A) (l : list A) :
  Permutation (concat (map (fun p => filter p (x :: l)) ps))
              (repeat x (hits ps x) ++ concat (map (fun p => filter p l) ps)).
Proof.
  induction ps as [|p ps IH]; simpl; [reflexivity|].
  unfold hits in *. simpl. destruct (p x); simpl.
  - apply perm_skip. rewrite IH.
    rewrite !app_assoc. apply Permutation_app_tail, Permutation_app_comm.
  - rewrite IH. rewrite !app_assoc.
    apply Permutation_app_tail, Permutation_app_comm.
Qed.

(** Filters that keep every row exactly once split the list. *)
Lemma filters_partition (ps : list (A -> bool)) (l : list A) :
  Forall (fun x => hits ps x = 1%nat) l ->
  Permutation (concat (map (fun p => filter p l) ps)) l.
Proof.
  induction 1 as [|x l Hx _ IH].
  - induction ps as [|p ps IHps]; simpl; [reflexivity|exact IHps].
  - rewrite filters_cons, Hx. simpl. now apply perm_skip.
Qed.

End Partition.

Lemma groups_filters (self : SunshineDistributor) (layer : list ranked) :
  groups self layer = map (fun p => filter p layer) (group_filters self).
Proof. unfold groups, group_filters. now destruct (has_rural self). Qed.

Lemma recognised_hits (self : SunshineDistributor) (r : ranked) :
  recognised (has_rural self) (ranked_student r) = true ->
  hits (group_filters self) r = 1%nat.
Proof.
  unfold recognised, group_filters, hits, is_male, is_female, is_urban,
    is_rural.
  destruct (String.eqb (gender (ranked_student r)) "男") eqn:Em,
           (String.eqb (gender (ranked_student r)) "女") eqn:Ef,
           (String.eqb (origin (ranked_student r)) "城区") eqn:Eu,
           (String.eqb (origin (ranked_student r)) "乡下") eqn:Er,
           (has_rural self);
    simpl; rewrite ?Em, ?Ef, ?Eu, ?Er; simpl;
    intros H; try discriminate; try reflexivity;
    rewrite ?String.eqb_eq in *; congruence.
Qed.

(** The groups of a layer of recognised students split the layer. *)
Lemma groups_partition (self : SunshineDistributor) (layer : list ranked) :
  Forall (fun r => recognised (has_rural self) (ranked_student r) = true)
         layer ->
  Permutation (concat (groups self layer)) layer.
Proof.
  intros H. rewrite groups_filters. apply filters_partition.
  eapply Forall_impl; [|exact H]. intros r. apply recognised_hits.
Qed.

(** With quotas [0 <= top_N] and [0 < bot_N] that the frame can fill, the
    three layers are consecutive pieces of the frame. *)
Lemma layers_partition (self : SunshineDistributor) (df : list ranked) :
  0 <= top_N self -> 0 < bot_N self ->
  top_N self + bot_N self <= Z.of_nat (length df) ->
  concat (layers self df) = df.
Proof.
  intros Ht Hb Hlen. unfold layers. simpl concat. rewrite app_nil_r.
  now apply three_slices.
Qed.

(** ** The ranked frame *)

Lemma set_rank_map (f : Z -> Z) (df : list student) :
  set_rank df (map f (map score df)) =
  map (fun s => mkRanked s (f (score s))) df.
Proof.
  unfold set_rank. induction df as [|s t IH]; simpl; [reflexivity|].
  now rewrite IH.
Qed.

Lemma desc_total : total desc.
Proof. intros a b. unfold desc. lia. Qed.

Lemma desc_transitive : transitive desc.
Proof. intros a b c. unfold desc. lia. Qed.

Lemma filter_none {A : Type} (f : A -> bool) (l : list A) :
  Forall (fun x => f x = false) l -> filter f l = [].
Proof.
  induction 1 as [|x t Hx _ IH]; simpl; [reflexivity|]. now rewrite Hx.
Qed.

(** In a descending list the first position of a value is the number of
    elements above it. *)
Lemma first_index_sorted (v : Z) (l : list Z) :
  StronglySorted (fun a b => desc a b = true) l -> In v l ->
  Series.first_index v l = above v l.
Proof.
  unfold above. induction 1 as [|x t Hs IH Hx]; intros Hin; [destruct Hin|].
  simpl. destruct (Z.eqb_spec x v) as [->|Hne].
  - rewrite Z.ltb_irrefl.
    assert (Hnone : filter (fun x => v <? x) t = []).
    { apply filter_none. eapply Forall_impl; [|exact Hx].
      intros y Hy. unfold desc in Hy. lia. }
    now rewrite Hnone.
  - destruct Hin as [->|Hin]; [congruence|].
    rewrite Forall_forall in Hx. specialize (Hx v Hin). unfold desc in Hx.
    destruct (Z.ltb_spec v x); [|lia]. simpl. f_equal. now apply IH.
Qed.

(** The refinement behind [rank(method='min', ascending=False)]: the rank
    of a value of the series is one more than the number of values strictly
    above it. *)
Lemma rank_min_desc_spec (s : list Z) :
  Series.rank_min_desc s = map (fun v => 1 + Z.of_nat (above v s)) s.
Proof.
  unfold Series.rank_min_desc. apply map_ext_in. intros v Hv.
  change (fun a b : Z => b <=? a) with desc.
  rewrite first_index_sorted.
  - unfold above. do 2 f_equal. apply Permutation_length, filter_perm.
    apply isort_perm.
  - apply isort_sorted; [apply desc_total|apply desc_transitive].
  - apply (Permutation_in _ (Permutation_sym (isort_perm desc s))). exact Hv.
Qed.

Section RankedFrame.

Context {pandas : Pandas}.

Lemma ranked_frame_perm (df : list student) :
  Permutation (ranked_frame df) (map (rank_row df) df).
Proof.
  unfold ranked_frame. rewrite rank_min_desc_spec.
  rewrite (set_rank_map (fun v => 1 + Z.of_nat (above v (map score df)))).
  apply sort_values_perm.
Qed.

Lemma ranked_frame_students (df : list student) :
  Permutation (map ranked_student (ranked_frame df)) df.
Proof.
  rewrite (Permutation_map _ (ranked_frame_perm df)).
  rewrite map_map. simpl. now rewrite map_id.
Qed.

Lemma ranked_frame_length (df : list student) :
  length (ranked_frame df) = length df.
Proof.
  rewrite <- (Permutation_length (ranked_frame_students df)).
  now rewrite length_map.
Qed.

Lemma ranked_frame_In (df : list student) (r : ranked) :
  In r (ranked_frame df) <->
  In (ranked_student r) df /\ r = rank_row df (ranked_student r).
Proof.
  split.
  - intros H. apply (Permutation_in _ (ranked_frame_perm df)) in H.
    apply in_map_iff in H. destruct H as (s & <- & Hs). now split.
  - intros [Hs ->].
    apply (Permutation_in _ (Permutation_sym (ranked_frame_perm df))).
    now apply in_map.
Qed.

End RankedFrame.

(** ** [run] *)

Section Run.

Context {pandas : Pandas}.

Lemma allocate_abort (self : SunshineDistributor) (df : list student)
  (w : world) :
  Z.of_nat (length df) < top_N self + bot_N self ->
  allocate self df w = (Abort (InsufficientData (top_N self + bot_N self)), w).
Proof.
  intros H. unfold allocate. rewrite ranked_frame_length.
  destruct (Z.ltb_spec (Z.of_nat (length df)) (top_N self + bot_N self));
    [reflexivity|lia].
Qed.

Lemma allocate_unfold (self : SunshineDistributor) (df : list student)
  (w : world) :
  top_N self + bot_N self <= Z.of_nat (length df) ->
  allocate self df w =
  (finish (fst (for_each (_distribute_sub_group self)
                         (all_groups self df) [] w)),
   snd (for_each (_distribute_sub_group self) (all_groups self df) [] w)).
Proof.
  intros H. unfold allocate. rewrite ranked_frame_length.
  destruct (Z.ltb_spec (Z.of_nat (length df)) (top_N self + bot_N self));
    [lia|].
  unfold bind. rewrite for_each_nested. fold (all_groups self df).
  destruct (for_each _ (all_groups self df) [] w) as [[al| |] w'];
    try reflexivity.
  destruct al; reflexivity.
Qed.

Lemma run_unfold (self : SunshineDistributor) (sh : sheet) (w : world) :
  run self sh w =
  allocate (fst (load_data self sh)) (dropna (sheet_rows sh)) w.
Proof. reflexivity. Qed.

(** With at least one class the loop over the groups returns, every row
    of every group is given a class of [1..K], and nothing else is. *)
Lemma distribute_all (self : SunshineDistributor) (gs : list (list ranked))
  (acc : list (list assigned)) (w : world) :
  1 <= K self ->
  exists (outs : list (list assigned)) (w' : world),
    for_each (_distribute_sub_group self) gs acc w = (Ret (acc ++ outs), w')
    /\ Permutation (map assigned_row (concat outs)) (concat gs)
    /\ Forall (in_range self) (concat outs)
    /\ (concat gs <> [] -> outs <> []).
Proof.
  intros HK. revert acc w.
  induction gs as [|g gs IH]; intros acc w.
  - exists [], w. rewrite app_nil_r. simpl. repeat split; auto.
  - destruct (distribute_call self g acc w HK)
      as (out & w1 & Hcall & Hperm & Hrange & Hne).
    destruct (IH (acc ++ out) w1) as (outs & w' & Hrest & Hperm' & Hrange' & Hne').
    exists (out ++ outs), w'. simpl for_each. unfold bind.
    rewrite Hcall, Hrest, app_assoc. split; [reflexivity|].
    rewrite concat_app, map_app. simpl concat. split; [|split].
    + now apply Permutation_app.
    + apply Forall_app. now split.
    + intros Hcat. destruct g as [|r t].
      * intros E. apply app_eq_nil in E. destruct E as [_ E].
        now apply Hne'.
      * intros E. apply app_eq_nil in E. destruct E as [E _].
        apply Hne; [discriminate|exact E].
Qed.

Lemma groups_of_layers (self : SunshineDistributor)
  (ls : list (list ranked)) :
  Forall (fun r => recognised (has_rural self) (ranked_student r) = true)
         (concat ls) ->
  Permutation (concat (concat (map (groups self) ls))) (concat ls).
Proof.
  induction ls as [|l ls IH]; simpl; intros H; [reflexivity|].
  apply Forall_app in H. destruct H as [Hl Hls].
  rewrite concat_app. apply Permutation_app.
  - now apply groups_partition.
  - now apply IH.
Qed.

(** The allocation proper: recognised students, at least one class, and
    quotas that the roster fills with a bottom tier that is not empty. *)
Lemma allocate_total (self : SunshineDistributor) (df : list student)
  (w : world) :
  1 <= K self -> 0 <= top_N self -> 0 < bot_N self ->
  top_N self + bot_N self <= Z.of_nat (length df) ->
  Forall (fun s => recognised (has_rural self) s = true) df ->
  exists (result : list assigned) (w' : world),
    allocate self df w = (Ret result, w')
    /\ Permutation (map student_of result) df
    /\ Forall (in_range self) result.
Proof.
  intros HK Ht Hb Hlen Hrec.
  rewrite allocate_unfold by exact Hlen.
  destruct (distribute_all self (all_groups self df) [] w HK)
    as (outs & w' & Hrun & Hperm & Hrange & Hne).
  rewrite Hrun. simpl app. simpl fst. simpl snd.
  assert (Hgroups : Permutation (concat (all_groups self df))
                                (ranked_frame df)).
  { unfold all_groups. rewrite groups_of_layers.
    - rewrite layers_partition; [reflexivity|lia|lia|].
      rewrite ranked_frame_length. exact Hlen.
    - rewrite layers_partition; [|lia|lia|rewrite ranked_frame_length; lia].
      apply Forall_forall. intros r Hr.
      apply ranked_frame_In in Hr. destruct Hr as [Hr _].
      rewrite Forall_forall in Hrec. now apply Hrec. }
  assert (Houts : outs <> []).
  { apply Hne. intros E. rewrite E in Hgroups.
    apply Permutation_length in Hgroups.
    rewrite ranked_frame_length in Hgroups. simpl in Hgroups. lia. }
  destruct outs as [|o outs]; [congruence|].
  eexists _, w'. split; [reflexivity|]. split.
  - unfold student_of. rewrite <- map_map.
    rewrite (Permutation_map _ (sort_values_perm _ _ _)).
    rewrite (Permutation_map _ Hperm), (Permutation_map _ Hgroups).
    apply ranked_frame_students.
  - apply (Permutation_Forall (Permutation_sym (sort_values_perm _ _ _))).
    exact Hrange.
Qed.

End Run.

(** ** The claims about [run] *)

(** C3, as the code has it.  For every loaded roster whose students all
    carry one of the two gender literals (and one of the two origin literals
    when the sheet has the origin column), with at least one class, a top
    quota that is not negative, a bottom quota of at least one row and a
    roster that fills both quotas, the run returns; its output holds every
    student of the loaded roster exactly once, each with a class id in
    [1..K]. *)
Theorem C3_every_recognised_student_is_placed_once
  (pandas : Pandas) (self : SunshineDistributor) (sh : sheet) (w : world) :
  1 <= K self -> 0 <= top_N self -> 0 < bot_N self ->
  top_N self + bot_N self <= Z.of_nat (length (dropna (sheet_rows sh))) ->
  Forall (fun s => recognised (has_rural (fst (load_data self sh))) s = true)
         (dropna (sheet_rows sh)) ->
  exists (result : list assigned) (w' : world),
    run self sh w = (Ret result, w')
    /\ Permutation (map student_of result) (dropna (sheet_rows sh))
    /\ Forall (fun a => 1 <= class_id a <= K self) result.
Proof.
  intros HK Ht Hb Hlen Hrec. rewrite run_unfold.
  apply (allocate_total (fst (load_data self sh))); assumption.
Qed.

Lemma C3_every_recognised_student_is_placed_once_witness :
  exists (result : list assigned) (w' : world),
    @run stable_pandas (init 2 1 1) demo_sheet demo_world
    = (Ret result, w')
    /\ Permutation (map student_of result) (dropna (sheet_rows demo_sheet))
    /\ Forall (fun a => 1 <= class_id a <= K (init 2 1 1)) result.
Proof.
  apply (C3_every_recognised_student_is_placed_once stable_pandas
           (init 2 1 1) demo_sheet demo_world).
  - simpl. lia.
  - simpl. lia.
  - simpl. lia.
  - simpl. lia.
  - repeat constructor.
Defined.

(** C3 as stated fails: a row with a valid score whose gender cell is not
    one of the two literals passes [load_data], is in no group, and is
    missing from the output. *)
Lemma C3_unrecognised_gender_is_dropped :
  In (pupil "b" "M" 80) (dropna (sheet_rows odd_sheet))
  /\ fst (@run stable_pandas (init 1 1 1) odd_sheet (world_of nil))
     = Ret [ mkAssigned (mkRanked (pupil "a" "男" 90) 1) 1 ].
Proof. split; [simpl; auto|reflexivity]. Qed.

(** C4 at a bottom quota of zero.  [df.iloc[-0:]] is the whole frame and
    [df.iloc[top_N:-0]] is empty: the first row is in the top and in the
    bottom tier, and the middle tier is not the remainder. *)
Theorem C4_bottom_quota_zero_overlaps :
  let self := init 1 1 0 in
  top_N self + bot_N self <= Z.of_nat (length [tie_a; tie_b])
  /\ layers self [tie_a; tie_b] = [ [tie_a]; []; [tie_a; tie_b] ].
Proof. split; [simpl; lia|reflexivity]. Qed.

(** C8.  Two runs on the same sheet that start from any two states of the
    generator and draw the same permutation for every sub-group end with
    the same outcome, hence the same class for every student: the draws of
    [random.shuffle] are all the runs can differ by. *)
Theorem C8_same_permutations_same_assignment
  (pandas : Pandas) (self : SunshineDistributor) (sh : sheet)
  (w1 w2 : world) :
  shuffled w1 = shuffled w2 ->
  shuffled (snd (run self sh w1)) = shuffled (snd (run self sh w2)) ->
  fst (run self sh w1) = fst (run self sh w2).
Proof.
  intros Hw. rewrite !run_unfold.
  set (self' := fst (load_data self sh)).
  set (df := dropna (sheet_rows sh)).
  destruct (Z.lt_ge_cases (Z.of_nat (length df)) (top_N self' + bot_N self'))
    as [Hlt|Hge].
  - rewrite !allocate_abort by exact Hlt. reflexivity.
  - rewrite !allocate_unfold by exact Hge. simpl fst. simpl snd.
    intros Hlog. f_equal. now apply for_each_deterministic.
Qed.

Lemma C8_same_permutations_same_assignment_witness :
  rng demo_world <> rng demo_world'
  /\ fst (@run stable_pandas (init 2 1 1) demo_sheet demo_world)
     = fst (@run stable_pandas (init 2 1 1) demo_sheet
              demo_world').
Proof.
  split; [discriminate|].
  apply (C8_same_permutations_same_assignment stable_pandas (init 2 1 1)
           demo_sheet demo_world demo_world');
    reflexivity.
Defined.

Lemma slice_middle_empty {A : Type} (t b : Z) (l : list A) :
  0 <= t -> 0 <= b -> Z.of_nat (length l) = t + b ->
  Py.slice (Some t) (Some (- b)) l = [].
Proof.
  intros Ht Hb Hlen. unfold Py.slice, Py.clamp.
  destruct (Z.ltb_spec t 0) as [?|_]; [lia|].
  replace (Z.to_nat _) with 0%nat; [reflexivity|].
  destruct (Z.ltb_spec (- b) 0); lia.
Qed.

Lemma finish_not_insufficient {pandas : Pandas}
  (r : res (list (list assigned))) (n : Z) :
  (forall e, r <> Abort e) -> finish r <> Abort (InsufficientData n).
Proof.
  intros Hr. destruct r as [[|o al]|e|]; simpl; try discriminate.
  now destruct (Hr e).
Qed.

(** C6.  The run aborts with the insufficient-data error exactly when the
    cleaned roster has fewer than [top_N + bot_N] students.  The abort
    leaves the world as it was: no permutation was drawn, so no sub-group
    was distributed, and there is no output.  A roster of exactly
    [top_N + bot_N] students passes the check, and its middle tier is
    empty. *)
Theorem C6_abort_iff_roster_below_quota
  (pandas : Pandas) (self : SunshineDistributor) (sh : sheet) (w : world) :
  let roster := dropna (sheet_rows sh) in
  let need := top_N self + bot_N self in
  ((exists n, fst (run self sh w) = Abort (InsufficientData n))
   <-> Z.of_nat (length roster) < need)
  /\ (Z.of_nat (length roster) < need ->
      run self sh w = (Abort (InsufficientData need), w))
  /\ (Z.of_nat (length roster) = need ->
      0 <= top_N self -> 0 <= bot_N self ->
      (forall n, fst (run self sh w) <> Abort (InsufficientData n))
      /\ nth 1 (layers (fst (load_data self sh)) (ranked_frame roster)) []
         = []).
Proof.
  intros roster need. rewrite run_unfold.
  set (self' := fst (load_data self sh)).
  assert (Hneed : top_N self' + bot_N self' = need) by reflexivity.
  assert (Hpass : need <= Z.of_nat (length roster) ->
                  forall n, fst (allocate self' roster w)
                            <> Abort (InsufficientData n)).
  { intros Hge n. rewrite allocate_unfold by lia. simpl fst.
    apply finish_not_insufficient. intros e.
    apply for_each_no_abort. }
  split; [split|split].
  - intros [n Hn].
    destruct (Z.lt_ge_cases (Z.of_nat (length roster)) need) as [Hlt|Hge];
      [exact Hlt|].
    now destruct (Hpass Hge n).
  - intros Hlt. exists need.
    rewrite allocate_abort by (rewrite Hneed; exact Hlt). reflexivity.
  - intros Hlt. rewrite allocate_abort by (rewrite Hneed; exact Hlt).
    reflexivity.
  - intros Heq Ht Hb. split.
    + apply Hpass. lia.
    + unfold layers. simpl nth.
      apply slice_middle_empty; try assumption.
      rewrite ranked_frame_length. exact Heq.
Qed.

(** ** The order inside a sub-group *)

Lemma by_score_desc_total : total by_score_desc.
Proof. intros a b. unfold by_score_desc. lia. Qed.

Lemma by_score_desc_transitive : transitive by_score_desc.
Proof. intros a b c. unfold by_score_desc. lia. Qed.

Lemma StronglySorted_weaken {A : Type} (R R' : A -> A -> Prop)
  (l : list A) :
  (forall a b, R a b -> R' a b) -> StronglySorted R l -> StronglySorted R' l.
Proof.
  intros HR. induction 1 as [|x t _ IH Hx]; constructor; [exact IH|].
  eapply Forall_impl; [|exact Hx]. intros b. apply HR.
Qed.

(** X19.  The distributor hands out the positions of the pattern in the
    order of the scores: with at least one class the call returns, the rows
    it appends are the rows of the sub-group, and in their order no row
    stands before a row of strictly higher score. *)
Theorem X19_positions_follow_descending_score
  (pandas : Pandas) (self : SunshineDistributor) (sub_df : list ranked)
  (acc : list (list assigned)) (w : world) :
  1 <= K self ->
  exists (out : list (list assigned)) (w' : world),
    _distribute_sub_group self sub_df acc w = (Ret (acc ++ out), w')
    /\ Permutation (map assigned_row (concat out)) sub_df
    /\ StronglySorted (fun a b => rscore b <= rscore a)
                      (map assigned_row (concat out)).
Proof.
  intros HK.
  destruct sub_df as [|r t] eqn:Esub.
  - exists [], w. rewrite app_nil_r. simpl.
    repeat split; try reflexivity; constructor.
  - rewrite <- Esub.
    assert (Hne : sub_df <> []) by (rewrite Esub; discriminate).
    destruct (distribute_nonempty self sub_df acc w HK Hne) as (m & Hm & Hrun).
    eexists [_], _. split; [exact Hrun|]. simpl concat. rewrite app_nil_r.
    rewrite snake_rows_rows by exact Hm.
    split; [apply sort_values_perm|].
    apply StronglySorted_weaken
      with (R := fun a b => by_score_desc a b = true).
    + intros a b. unfold by_score_desc. lia.
    + apply sort_values_sorted;
        [apply by_score_desc_total|apply by_score_desc_transitive].
Qed.

(** ** The grade rank *)

Lemma above_mono (a b : Z) (l : list Z) :
  b <= a -> (above a l <= above b l)%nat.
Proof.
  intros Hab. unfold above. induction l as [|x t IH]; simpl; [lia|].
  destruct (Z.ltb_spec a x), (Z.ltb_spec b x); simpl; lia.
Qed.

Lemma above_strict (a b : Z) (l : list Z) :
  In a l -> b < a -> (above a l < above b l)%nat.
Proof.
  intros Hin Hab. induction l as [|x t IH]; [destruct Hin|].
  pose proof (above_mono a b t ltac:(lia)) as Hmono.
  unfold above in *. simpl.
  destruct Hin as [->|Hin].
  - rewrite Z.ltb_irrefl. destruct (Z.ltb_spec b a); [simpl; lia|lia].
  - specialize (IH Hin).
    destruct (Z.ltb_spec a x), (Z.ltb_spec b x); simpl; lia.
Qed.

Lemma exists_top (l : list Z) :
  l <> [] -> exists v, In v l /\ above v l = 0%nat.
Proof.
  induction l as [|x t IH]; intros Hne; [congruence|].
  destruct t as [|y t'].
  - exists x. split; [now left|]. unfold above. simpl.
    now rewrite Z.ltb_irrefl.
  - destruct (IH ltac:(discriminate)) as (v & Hv & Hab).
    set (rest := y :: t') in *. clearbody rest.
    destruct (Z.le_gt_cases x v) as [Hle|Hgt].
    + exists v. split; [now right|]. unfold above in *. simpl.
      destruct (Z.ltb_spec v x); [lia|exact Hab].
    + exists x. split; [now left|].
      pose proof (above_mono x v rest ltac:(lia)) as Hm.
      unfold above in *. simpl. rewrite Z.ltb_irrefl. lia.
Qed.

Section OutputRows.

Context {pandas : Pandas}.

Variable self : SunshineDistributor.

Lemma In_set_class (rows : list ranked) (ids : list Z) (a : assigned) :
  In a (set_class rows ids) -> In (assigned_row a) rows.
Proof.
  unfold set_class. intros H. apply in_map_iff in H.
  destruct H as ([r c] & <- & Hin). simpl.
  eapply in_combine_l. exact Hin.
Qed.

(** Whatever the loop appends is a row of one of the groups. *)
Lemma for_each_rows (gs : list (list ranked)) (acc acc' : list (list assigned))
  (w w' : world) (a : assigned) :
  for_each (_distribute_sub_group self) gs acc w = (Ret acc', w') ->
  In a (concat acc') ->
  In a (concat acc) \/ In (assigned_row a) (concat gs).
Proof.
  revert acc w; induction gs as [|g gs IH]; intros acc w; simpl.
  - unfold ret. intros E. injection E as <- _. now left.
  - unfold bind. destruct g as [|r t].
    + rewrite distribute_empty. apply IH.
    + rewrite distribute_unfold by discriminate. unfold distribute_with.
      destruct (snake_loop _ _ [] _) as [p|]; [|discriminate].
      intros Hrun Ha. destruct (IH _ _ Hrun Ha) as [Hacc|Hgs].
      * rewrite concat_app in Hacc. simpl in Hacc. rewrite app_nil_r in Hacc.
        apply in_app_or in Hacc. destruct Hacc as [Hacc|Hnew]; [now left|].
        right. apply in_or_app. left.
        apply In_set_class in Hnew.
        apply (Permutation_in _ (sort_values_perm _ by_score_desc _)).
        exact Hnew.
      * right. apply in_or_app. now right.
Qed.

Lemma In_groups (ls : list (list ranked)) (r : ranked) :
  In r (concat (concat (map (groups self) ls))) -> In r (concat ls).
Proof.
  intros H. apply in_concat in H. destruct H as (g & Hg & Hr).
  apply in_concat in Hg. destruct Hg as (gl & Hgl & Hg).
  apply in_map_iff in Hgl. destruct Hgl as (l & <- & Hl).
  rewrite groups_filters in Hg. apply in_map_iff in Hg.
  destruct Hg as (p & <- & _). apply filter_In in Hr.
  apply in_concat. exists l. tauto.
Qed.

(** Every row of the output of [allocate] is a row of the ranked frame. *)
Lemma allocate_rows (df : list student) (w : world) :
  match fst (allocate self df w) with
  | Ret result => Forall (fun a => In (assigned_row a) (ranked_frame df)) result
  | _ => True
  end.
Proof.
  destruct (Z.lt_ge_cases (Z.of_nat (length df)) (top_N self + bot_N self))
    as [Hlt|Hge].
  - now rewrite allocate_abort.
  - rewrite allocate_unfold by exact Hge. simpl fst.
    destruct (for_each _ (all_groups self df) [] w) as [[al| |] w'] eqn:Hrun;
      simpl; try exact I.
    destruct al as [|o al]; [exact I|].
    apply Forall_forall. intros a Ha.
    apply (Permutation_in _ (sort_values_perm _ _ _)) in Ha.
    destruct (for_each_rows _ _ _ _ _ a Hrun Ha) as [[]|Hin].
    unfold all_groups in Hin. apply In_groups in Hin.
    apply in_concat in Hin. destruct Hin as (l & Hl & Hr).
    unfold layers in Hl. simpl in Hl.
    destruct Hl as [<-|[<-|[<-|[]]]]; eapply In_slice; exact Hr.
Qed.

End OutputRows.

(** C5.  The grade rank is computed once, on the whole roster, before the
    size check and the tiers: the ranked frame holds every student once,
    with rank 1 + the number of students of the roster whose score is
    strictly higher.  So equal scores share a rank, a strictly higher score
    has a strictly smaller rank, every rank is at least 1 and, on a roster
    that is not empty, some student has rank 1.  The rows of the output are
    rows of that frame, with that rank. *)
Theorem C5_grade_rank_counts_strictly_higher_scores
  (pandas : Pandas) (df : list student) :
  let rf := ranked_frame df in
  Permutation (map ranked_student rf) df
  /\ (forall r, In r rf ->
        grade_rank r = 1 + Z.of_nat (above (rscore r) (map score df)))
  /\ (forall a b, In a rf -> In b rf ->
        rscore a = rscore b -> grade_rank a = grade_rank b)
  /\ (forall a b, In a rf -> In b rf ->
        rscore b < rscore a -> grade_rank a < grade_rank b)
  /\ (forall r, In r rf -> 1 <= grade_rank r)
  /\ (df <> [] -> exists r, In r rf /\ grade_rank r = 1)
  /\ (forall (self : SunshineDistributor) (w : world),
        match fst (allocate self df w) with
        | Ret result => Forall (fun a => In (assigned_row a) rf) result
        | _ => True
        end).
Proof.
  intros rf.
  assert (Hrank : forall r, In r rf ->
            grade_rank r = 1 + Z.of_nat (above (rscore r) (map score df))).
  { intros r Hr. apply ranked_frame_In in Hr. destruct Hr as [_ Hr].
    rewrite Hr at 1. reflexivity. }
  assert (Hscore : forall r, In r rf -> In (rscore r) (map score df)).
  { intros r Hr. apply ranked_frame_In in Hr. destruct Hr as [Hr _].
    unfold rscore. now apply in_map. }
  split; [apply ranked_frame_students|].
  split; [exact Hrank|].
  split; [|split; [|split; [|split]]].
  - intros a b Ha Hb Hab. rewrite (Hrank a Ha), (Hrank b Hb), Hab.
    reflexivity.
  - intros a b Ha Hb Hab. rewrite (Hrank a Ha), (Hrank b Hb).
    pose proof (above_strict (rscore a) (rscore b) (map score df)
                  (Hscore a Ha) Hab). lia.
  - intros r Hr. rewrite (Hrank r Hr). lia.
  - intros Hne.
    destruct (exists_top (map score df)) as (v & Hv & Hab).
    { destruct df; [congruence|discriminate]. }
    apply in_map_iff in Hv. destruct Hv as (s & <- & Hs).
    exists (rank_row df s). split.
    + apply ranked_frame_In. simpl. now split.
    + unfold rank_row. simpl. rewrite Hab. reflexivity.
  - intros self w. apply allocate_rows.
Qed.

(** ** The theorems at the sample inputs *)

Lemma C1_snake_headcounts_differ_by_at_most_one_witness :
  1 <= K (init 3 1 1)
  /\ exists (out : list (list assigned)) (w' : world),
       @_distribute_sub_group stable_pandas (init 3 1 1) demo_group []
         demo_world = (Ret ([] ++ out), w')
       /\ Permutation (map assigned_row (concat out)) demo_group
       /\ forall c1 c2 : Z,
            1 <= c1 <= K (init 3 1 1) -> 1 <= c2 <= K (init 3 1 1) ->
            Z.abs (headcount c1 (concat out) - headcount c2 (concat out))
            <= 1.
Proof.
  split; [simpl; lia|].
  apply (C1_snake_headcounts_differ_by_at_most_one stable_pandas
           (init 3 1 1) demo_group [] demo_world).
  simpl. lia.
Defined.

Lemma C2_every_window_of_2K_holds_each_class_twice_witness :
  1 <= K (init 3 1 1)
  /\ exists (out : list (list assigned)) (w' : world),
       @_distribute_sub_group stable_pandas (init 3 1 1) demo_group []
         demo_world = (Ret ([] ++ out), w')
       /\ length (class_ids (concat out)) = length demo_group
       /\ forall (s : nat) (c : Z),
            1 <= c <= K (init 3 1 1) ->
            Z.of_nat s + 2 * K (init 3 1 1)
            <= Z.of_nat (length demo_group) ->
            count (firstn (Z.to_nat (2 * K (init 3 1 1)))
                          (skipn s (class_ids (concat out)))) c = 2%nat.
Proof.
  split; [simpl; lia|].
  apply (C2_every_window_of_2K_holds_each_class_twice stable_pandas
           (init 3 1 1) demo_group [] demo_world).
  simpl. lia.
Defined.

Lemma X19_positions_follow_descending_score_witness :
  1 <= K (init 3 1 1)
  /\ exists (out : list (list assigned)) (w' : world),
       @_distribute_sub_group stable_pandas (init 3 1 1) demo_group []
         demo_world = (Ret ([] ++ out), w')
       /\ Permutation (map assigned_row (concat out)) demo_group
       /\ StronglySorted (fun a b => rscore b <= rscore a)
                         (map assigned_row (concat out)).
Proof.
  split; [simpl; lia|].
  apply (X19_positions_follow_descending_score stable_pandas
           (init 3 1 1) demo_group [] demo_world).
  simpl. lia.
Defined.

Lemma C9_fold_neighbours_share_a_class_witness :
  1 <= K (init 3 1 1)
  /\ exists (out : list (list assigned)) (w' : world),
       @_distribute_sub_group stable_pandas (init 3 1 1) demo_group []
         demo_world = (Ret ([] ++ out), w')
       /\ (demo_group <> [] ->
           shuffled w'
           = shuffled demo_world
             ++ [base_permutation (K (init 3 1 1)) (rng demo_world)])
       /\ forall j : nat,
            ((2 * j * Z.to_nat (K (init 3 1 1)) + Z.to_nat (K (init 3 1 1))
              < length demo_group)%nat ->
             nth_error (class_ids (concat out))
               (2 * j * Z.to_nat (K (init 3 1 1))
                + Z.to_nat (K (init 3 1 1)) - 1)
             = Some (last (base_permutation (K (init 3 1 1))
                             (rng demo_world)) 0)
             /\ nth_error (class_ids (concat out))
                  (2 * j * Z.to_nat (K (init 3 1 1))
                   + Z.to_nat (K (init 3 1 1)))
                = Some (last (base_permutation (K (init 3 1 1))
                                (rng demo_world)) 0))
            /\ ((1 <= j)%nat ->
                (2 * j * Z.to_nat (K (init 3 1 1)) < length demo_group)%nat ->
                nth_error (class_ids (concat out))
                  (2 * j * Z.to_nat (K (init 3 1 1)) - 1)
                = Some (hd 0 (base_permutation (K (init 3 1 1))
                                (rng demo_world)))
                /\ nth_error (class_ids (concat out))
                     (2 * j * Z.to_nat (K (init 3 1 1)))
                   = Some (hd 0 (base_permutation (K (init 3 1 1))
                                   (rng demo_world)))).
Proof.
  split; [simpl; lia|].
  apply (C9_fold_neighbours_share_a_class stable_pandas
           (init 3 1 1) demo_group [] demo_world).
  simpl. lia.
Defined.

(** The sample sub-group, distributed over three classes: the assignment
    sequence and the students it goes to. *)
Example demo_group_distributed :
  match fst (@_distribute_sub_group stable_pandas (init 3 1 1) demo_group []
               demo_world) with
  | Ret [rows] =>
      class_ids rows = [3; 1; 2; 2; 1; 3; 3; 1]
      /\ map ascore rows = [95; 90; 85; 80; 80; 70; 65; 60]
      /\ map (fun a => name (student_of a)) rows
         = ["g2"; "g7"; "g6"; "g3"; "g4"; "g1"; "g8"; "g5"]%string
  | _ => False
  end.
Proof. repeat split; reflexivity. Qed.

Example rank_min_desc_example :
  Series.rank_min_desc [90; 85; 90; 70; 85; 100] = [2; 4; 2; 6; 4; 1].
Proof. reflexivity. Qed.

(** Fifteen students and two classes with the quotas of the command line:
    40 are needed and the run exits. *)
Example run_too_small :
  @run stable_pandas (init 2 10 10)
    {| has_origin_column := false;
       sheet_rows := repeat (cell "s" "男" (Some 60)) 15 |} demo_world
  = (Abort (InsufficientData 40), demo_world).
Proof. reflexivity. Qed.

(** With a bottom quota of zero the whole frame is the bottom layer as
    well: student [a] of the top layer is distributed twice. *)
Example run_bottom_quota_zero :
  match fst (@run stable_pandas (init 1 1 0)
               {| has_origin_column := false;
                  sheet_rows := [ cell "a" "男" (Some 90);
                                  cell "b" "男" (Some 80) ] |}
               demo_world) with
  | Ret result =>
      map (fun a => name (student_of a)) result = ["a"; "a"; "b"]%string
  | _ => False
  end.
Proof. reflexivity. Qed.

(** Without a class the loop of the distributor does not end. *)
Example run_without_classes :
  fst (@run stable_pandas (init 0 1 1) demo_sheet demo_world) = Loop.
Proof. reflexivity. Qed.

(** ** The balance report *)

Section Report.

Import Analysis.

Lemma get_tabulate (f : string -> Q) (cols : list string) (col : string) :
  In col cols -> get col (map (fun c => (c, f c)) cols) = f col.
Proof.
  induction cols as [|c cs IH]; intros Hin; [destruct Hin|].
  simpl. destruct (String.eqb_spec c col) as [->|Hne]; [reflexivity|].
  destruct Hin as [->|Hin]; [congruence|]. now apply IH.
Qed.

Lemma cols_order_present (df : frame) (present : list string)
  (col : string) :
  In col (cols_order df present) -> In col present.
Proof.
  unfold cols_order. intros H. apply filter_In in H. destruct H as [_ H].
  apply existsb_exists in H. destruct H as (x & Hx & E).
  apply String.eqb_eq in E. now subst.
Qed.

(** The final table: one row per class, then the average row. *)
Lemma table_rows (cols : list string) (result : list (Z * series))
  (avg : series) :
  let t := map (fun r => (fst r, reorder cols (snd r)))
               (map (fun r => (ClassLabel (fst r), snd r)) result
                ++ [(AverageLabel, avg)]) in
  class_rows t = map (fun r => reorder cols (snd r)) result
  /\ average_row t = Some (reorder cols avg).
Proof.
  unfold class_rows, average_row.
  induction result as [|r t IH]; simpl; [auto|].
  destruct IH as [IH1 IH2]. split; [now rewrite IH1|exact IH2].
Qed.

Lemma analyze_rows (df : frame) :
  let cols := cols_order df (columns (per_class df)) in
  class_rows (analyze_class_balance df)
  = map (fun r => reorder cols (snd r)) (per_class df)
  /\ average_row (analyze_class_balance df)
     = Some (reorder cols (column_means (per_class df))).
Proof. apply table_rows. Qed.

Lemma dedup_sorted_nonempty (l : list Z) : l <> [] -> dedup_sorted l <> [].
Proof.
  induction l as [|x t IH]; intros H; [congruence|].
  simpl. destruct t as [|y t']; [discriminate|].
  destruct (x =? y)%Z; [apply IH|]; discriminate.
Qed.

Lemma group_keys_nonempty (x : list row) : x <> [] -> group_keys x <> [].
Proof.
  intros H. apply dedup_sorted_nonempty. intros E.
  pose proof (Permutation_length (isort_perm Z.leb (map row_class x))) as Hl.
  rewrite E, length_map in Hl. destruct x; [congruence|discriminate].
Qed.

Lemma calc_stats_mean_score (df : frame) (x : list row) :
  has_score df = true ->
  get "平均分" (calc_stats df x) = round2 (mean (map row_score x)).
Proof. intros H. unfold calc_stats. rewrite H. reflexivity. Qed.

Lemma mean_score_column (df : frame) :
  has_score df = true -> rows df <> [] ->
  In "平均分"%string (cols_order df (columns (per_class df))).
Proof.
  intros Hs Hne. unfold per_class.
  pose proof (group_keys_nonempty (rows df) Hne) as Hk.
  destruct (group_keys (rows df)) as [|c cs]; [congruence|].
  unfold cols_order, columns, calc_stats. simpl. rewrite Hs.
  destruct (has_rural df); simpl; auto.
Qed.

(** C10.  The row labelled average of the report is the column-wise,
    unweighted mean of the per-class rows: every entry of it is the mean of
    that column over the class rows, and its mean-score entry is the mean of
    the rounded class means.  It is not computed over the students: on a
    frame with one student of score 90 in class 1 and two of score 60 in
    class 2 the entry is 75, and the mean score of the three students is
    70. *)
Theorem C10_average_row_is_mean_of_class_rows (df : frame) :
  (exists avg : series,
     average_row (analyze_class_balance df) = Some avg
     /\ (forall col : string,
           In col (map fst avg) ->
           get col avg
           = mean (map (get col) (class_rows (analyze_class_balance df))))
     /\ (has_score df = true -> rows df <> [] ->
         get "平均分" avg
         = mean (map (fun c =>
                        round2 (mean (map row_score
                                        (filter (fun r => (row_class r =? c)%Z)
                                                (rows df)))))
                     (group_keys (rows df)))))
  /\ match average_row (analyze_class_balance uneven_frame) with
     | Some avg =>
         (get "平均分" avg == 75)%Q
         /\ (mean (map row_score (rows uneven_frame)) == 70)%Q
         /\ ~ (get "平均分" avg == mean (map row_score (rows uneven_frame)))%Q
     | None => False
     end.
Proof.
  split.
  - destruct (analyze_rows df) as [Hrows Havg].
    set (cols := cols_order df (columns (per_class df))) in *.
    assert (Hentry : forall col, In col cols ->
              get col (reorder cols (column_means (per_class df)))
              = mean (map (fun r => get col (snd r)) (per_class df))).
    { intros col Hcol. unfold reorder. rewrite (get_tabulate _ cols col Hcol).
      unfold column_means.
      apply (get_tabulate
               (fun c => mean (map (fun r => get c (snd r)) (per_class df)))).
      eapply cols_order_present. exact Hcol. }
    eexists. split; [exact Havg|]. split.
    + intros col Hcol.
      assert (Hin : In col cols).
      { unfold reorder in Hcol. rewrite map_map in Hcol. simpl in Hcol.
        now rewrite map_id in Hcol. }
      rewrite (Hentry col Hin), Hrows, map_map. f_equal.
      apply map_ext. intros r. unfold reorder.
      now rewrite (get_tabulate _ cols col Hin).
    + intros Hs Hne.
      rewrite (Hentry _ (mean_score_column df Hs Hne)).
      unfold per_class. rewrite map_map. f_equal.
      apply map_ext. intros c. simpl snd.
      now apply calc_stats_mean_score.
  - vm_compute. repeat split; intros H; discriminate H.
Qed.

End Report.

(** * Further properties of the allocation *)

(** ** The closed form of the snake *)

Lemma nth_error_block (ci : list Z) (r : nat) :
  (r < 2 * length ci)%nat ->
  nth_error (block ci) r =
  nth_error ci (if (r <? length ci)%nat then r
                else (2 * length ci - 1 - r)%nat).
Proof.
  intros Hr. unfold block.
  destruct (Nat.ltb_spec r (length ci)) as [Hlt|Hge].
  - now apply nth_error_app1.
  - rewrite nth_error_app2 by exact Hge. rewrite nth_error_rev.
    destruct (Nat.ltb_spec (r - length ci) (length ci)); [|lia].
    f_equal. lia.
Qed.

(** X1.  The student at rank [i] (0-based) of a sub-group gets the id at
    index [snake_index K i] of the permutation drawn for the sub-group:
    index [i mod 2K] on the way forward, [2K - 1 - i mod 2K] on the way
    back. *)
Theorem X1_snake_closed_form
  (pandas : Pandas) (self : SunshineDistributor) (sub_df : list ranked)
  (acc : list (list assigned)) (w : world) :
  1 <= K self ->
  exists (out : list (list assigned)) (w' : world),
    _distribute_sub_group self sub_df acc w = (Ret (acc ++ out), w')
    /\ forall i : nat,
         (i < length sub_df)%nat ->
         nth_error (class_ids (concat out)) i
         = nth_error (base_permutation (K self) (rng w))
                     (snake_index (Z.to_nat (K self)) i).
Proof.
  intros HK.
  destruct sub_df as [|r t] eqn:Esub.
  - exists [], w. rewrite app_nil_r. split; [reflexivity|].
    intros i Hi. simpl in Hi. lia.
  - rewrite <- Esub.
    assert (Hne : sub_df <> []) by (rewrite Esub; discriminate).
    destruct (distribute_nonempty self sub_df acc w HK Hne) as (m & Hm & Hrun).
    set (ci := base_permutation (K self) (rng w)) in *.
    assert (Hk : length ci = Z.to_nat (K self))
      by apply base_permutation_length.
    eexists [_], _. split; [exact Hrun|]. simpl concat. rewrite app_nil_r.
    rewrite snake_rows_ids by exact Hm.
    intros i Hi. rewrite nth_error_firstn.
    destruct (Nat.ltb_spec i (length sub_df)); [|lia].
    rewrite block_length in Hm.
    rewrite nth_error_blocks by (rewrite ?block_length; lia).
    rewrite block_length, nth_error_block
      by (apply Nat.mod_upper_bound; lia).
    unfold snake_index. now rewrite Hk.
Qed.

(** ** Sub-groups whose length is a multiple of [K] *)

Lemma snake_counts_exact (ci : list Z) (n m t : nat) (c : Z) :
  count ci c = 1%nat ->
  (n <= m * length (block ci))%nat ->
  n = (t * length ci)%nat ->
  count (firstn n (blocks ci m)) c = t.
Proof.
  intros Hc Hn Ht.
  pose proof (count_positive_length c ci Hc) as HL.
  rewrite (firstn_blocks ci n m HL Hn).
  rewrite count_occ_app, count_blocks, Hc.
  pose proof (Nat.div_mod_eq n (length (block ci))) as Hdm.
  pose proof (Nat.mod_upper_bound n (length (block ci)) ltac:(lia)) as Hr.
  set (q := (n / length (block ci))%nat) in *.
  set (r := (n mod length (block ci))%nat) in *.
  rewrite block_length in *.
  destruct (count_partial_block c ci r Hc) as [Hle Hge].
  assert (Hcases : ((t = 2 * q /\ r = 0)
                    \/ (t = 2 * q + 1 /\ r = length ci))%nat).
  { assert (Hr' : (r = (t - 2 * q) * length ci)%nat) by nia.
    assert (t - 2 * q < 2)%nat by nia.
    assert (2 * q <= t)%nat by nia.
    destruct (Nat.eq_dec (t - 2 * q) 0) as [E|E].
    - left. rewrite E in Hr'. lia.
    - right. assert (E1 : (t - 2 * q = 1)%nat) by lia.
      rewrite E1 in Hr'. lia. }
  destruct Hcases as [[-> Hr0]|[-> Hrk]].
  - rewrite Hr0. simpl. lia.
  - specialize (Hle ltac:(lia)). specialize (Hge ltac:(lia)). lia.
Qed.

(** X2.  When the length of a sub-group is a multiple of [K] (and not only
    of [2K]) the distribution is exact: every class of [1..K] gets
    [length / K] of its students. *)
Theorem X2_multiple_of_K_is_split_evenly
  (pandas : Pandas) (self : SunshineDistributor) (sub_df : list ranked)
  (acc : list (list assigned)) (w : world) (t : Z) :
  1 <= K self ->
  Z.of_nat (length sub_df) = t * K self ->
  exists (out : list (list assigned)) (w' : world),
    _distribute_sub_group self sub_df acc w = (Ret (acc ++ out), w')
    /\ forall c : Z, 1 <= c <= K self -> headcount c (concat out) = t.
Proof.
  intros HK Ht.
  destruct sub_df as [|r0 l] eqn:Esub.
  - exists [], w. rewrite app_nil_r. split; [reflexivity|].
    intros c Hc. unfold headcount. simpl in *. nia.
  - rewrite <- Esub in *.
    assert (Hne : sub_df <> []) by (rewrite Esub; discriminate).
    destruct (distribute_nonempty self sub_df acc w HK Hne) as (m & Hm & Hrun).
    set (ci := base_permutation (K self) (rng w)) in *.
    assert (Hk : length ci = Z.to_nat (K self))
      by apply base_permutation_length.
    eexists [_], _. split; [exact Hrun|]. simpl concat. rewrite app_nil_r.
    intros c Hc. unfold headcount. rewrite snake_rows_ids by exact Hm.
    rewrite (snake_counts_exact ci (length sub_df) m (Z.to_nat t) c).
    + nia.
    + now apply base_permutation_count.
    + exact Hm.
    + rewrite Hk. nia.
Qed.

(** X3.  Without a class ([K <= 0]) the pattern never grows: for a
    sub-group that is not empty the [while] loop has not ended after any
    number of rounds, and the call does not return. *)
Theorem X3_no_class_no_return
  (pandas : Pandas) (self : SunshineDistributor) (sub_df : list ranked)
  (acc : list (list assigned)) (w : world) :
  K self <= 0 -> sub_df <> [] ->
  (forall fuel : nat,
     snake_loop fuel (base_permutation (K self) (rng w)) []
                (length (sort_values by_score_desc sub_df)) = None)
  /\ fst (_distribute_sub_group self sub_df acc w) = Loop.
Proof.
  intros HK Hne. split.
  - intros fuel.
    pose proof (base_permutation_length (K self) (rng w)) as Hl.
    destruct (base_permutation (K self) (rng w)) as [|c ci];
      [|simpl in Hl; lia].
    apply snake_loop_diverges.
    rewrite (Permutation_length (sort_values_perm _ by_score_desc sub_df)).
    destruct sub_df; [congruence|simpl; lia].
  - now apply distribute_without_classes.
Qed.

(** ** Balance of the whole run *)

Lemma count_in_app (c : Z) (p : ranked -> bool) (l1 l2 : list assigned) :
  count_in c p (l1 ++ l2) = count_in c p l1 + count_in c p l2.
Proof. unfold count_in. rewrite filter_app, length_app. lia. Qed.

Lemma count_in_perm (c : Z) (p : ranked -> bool) (l l' : list assigned) :
  Permutation l l' -> count_in c p l = count_in c p l'.
Proof.
  intros H. unfold count_in. f_equal.
  apply Permutation_length, filter_perm, H.
Qed.

Lemma count_in_all (c : Z) (p : ranked -> bool) (rows : list assigned) :
  Forall (fun a => p (assigned_row a) = true) rows ->
  count_in c p rows = headcount c rows.
Proof.
  unfold count_in, headcount, class_ids. intros H. f_equal.
  induction H as [|a t Ha _ IH]; simpl; [reflexivity|].
  rewrite Ha, andb_true_r.
  destruct (Z.eq_dec (class_id a) c) as [E|E], (Z.eqb_spec (class_id a) c);
    try congruence; simpl; now rewrite IH.
Qed.

Lemma count_in_none (c : Z) (p : ranked -> bool) (rows : list assigned) :
  Forall (fun a => p (assigned_row a) = false) rows ->
  count_in c p rows = 0.
Proof.
  unfold count_in. intros H. rewrite filter_none; [reflexivity|].
  eapply Forall_impl; [|exact H]. intros a Ha. simpl.
  now rewrite Ha, andb_false_r.
Qed.


Section Balance.

Context {pandas : Pandas}.

Variable self : SunshineDistributor.
Hypothesis K_positive : 1 <= K self.

Variable p : ranked -> bool.

(** One call: the rows of class [c1] and of class [c2] that pass [p]
    differ by one at most, and by none when no row of the group passes. *)
Lemma distribute_call_balance (g : list ranked)
  (acc : list (list assigned)) (w : world) :
  whole_or_none p g ->
  exists (out : list (list assigned)) (w' : world),
    _distribute_sub_group self g acc w = (Ret (acc ++ out), w')
    /\ forall c1 c2 : Z,
         1 <= c1 <= K self -> 1 <= c2 <= K self ->
         Z.abs (count_in c1 p (concat out) - count_in c2 p (concat out))
         <= (if existsb p g then 1 else 0).
Proof.
  intros Hg.
  destruct g as [|r t] eqn:Eg.
  - exists [], w. rewrite app_nil_r. split; [reflexivity|].
    intros c1 c2 _ _. simpl. unfold count_in. simpl. lia.
  - rewrite <- Eg in *.
    assert (Hne : g <> []) by (rewrite Eg; discriminate).
    destruct (distribute_nonempty self g acc w K_positive Hne)
      as (m & Hm & Hrun).
    eexists [_], _. split; [exact Hrun|]. simpl concat. rewrite app_nil_r.
    intros c1 c2 Hc1 Hc2.
    assert (Hrows : forall q : ranked -> bool, forall b : bool,
              Forall (fun r => q r = b) g ->
              Forall (fun a => q (assigned_row a) = b)
                     (snake_rows g (base_permutation (K self) (rng w)) m)).
    { intros q b Hq. apply Forall_map with (f := assigned_row)
                                           (P := fun r => q r = b).
      rewrite snake_rows_rows by exact Hm.
      apply (Permutation_Forall
               (Permutation_sym (sort_values_perm _ by_score_desc g))).
      exact Hq. }
    destruct Hg as [Hall|Hnone].
    + rewrite !count_in_all by (apply Hrows; exact Hall).
      unfold headcount. rewrite snake_rows_ids by exact Hm.
      assert (Hex : existsb p g = true).
      { rewrite Eg in *. simpl. inversion Hall as [|? ? Hr _]; subst.
        now rewrite Hr. }
      rewrite Hex.
      apply snake_counts_balanced; auto using base_permutation_count.
    + rewrite !count_in_none by (apply Hrows; exact Hnone).
      destruct (existsb p g); simpl; lia.
Qed.

(** The loop over a list of such groups: the difference is at most the
    number of groups with a row that passes [p]. *)
Lemma for_each_balance (gs : list (list ranked))
  (acc : list (list assigned)) (w : world) :
  Forall (whole_or_none p) gs ->
  exists (outs : list (list assigned)) (w' : world),
    for_each (_distribute_sub_group self) gs acc w = (Ret (acc ++ outs), w')
    /\ forall c1 c2 : Z,
         1 <= c1 <= K self -> 1 <= c2 <= K self ->
         Z.abs (count_in c1 p (concat outs) - count_in c2 p (concat outs))
         <= Z.of_nat (length (filter (existsb p) gs)).
Proof.
  intros Hgs. revert acc w.
  induction Hgs as [|g gs Hg _ IH]; intros acc w.
  - exists [], w. rewrite app_nil_r. split; [reflexivity|].
    intros c1 c2 _ _. unfold count_in. simpl. lia.
  - destruct (distribute_call_balance g acc w Hg)
      as (out & w1 & Hcall & Hbal).
    destruct (IH (acc ++ out) w1) as (outs & w' & Hrest & Hbal').
    exists (out ++ outs), w'. simpl for_each. unfold bind.
    rewrite Hcall, Hrest, app_assoc. split; [reflexivity|].
    intros c1 c2 Hc1 Hc2. rewrite concat_app, !count_in_app.
    specialize (Hbal c1 c2 Hc1 Hc2). specialize (Hbal' c1 c2 Hc1 Hc2).
    simpl filter. destruct (existsb p g); simpl length; lia.
Qed.

End Balance.

Lemma male_not_female (r : ranked) : is_male r && is_female r = false.
Proof.
  unfold is_male, is_female.
  destruct (String.eqb_spec (gender (ranked_student r)) "男") as [->|];
    reflexivity.
Qed.

Lemma urban_not_rural (r : ranked) : is_urban r && is_rural r = false.
Proof.
  unfold is_urban, is_rural.
  destruct (String.eqb_spec (origin (ranked_student r)) "城区") as [->|];
    reflexivity.
Qed.






Lemma groups_count (self : SunshineDistributor) (ls : list (list ranked)) :
  length (concat (map (groups self) ls))
  = (length ls * length (group_filters self))%nat.
Proof.
  induction ls as [|l ls IH]; simpl; [reflexivity|].
  rewrite length_app, IH, groups_filters, length_map. lia.
Qed.

Lemma finish_cases {pandas : Pandas} (outs : list (list assigned)) :
  finish (Ret outs) = Abort NoObjectsToConcatenate
  \/ finish (Ret outs)
     = Ret (sort_values by_class_then_score (concat outs)).
Proof. destruct outs; simpl; auto. Qed.


(** X5.  In such a run the sizes of any two classes differ by at most the
    number of sub-groups: 6 without the origin column, 12 with it. *)
Theorem X5_class_sizes_differ_by_at_most_the_number_of_groups
  (pandas : Pandas) (self : SunshineDistributor) (sh : sheet) (w : world) :
  1 <= K self ->
  top_N self + bot_N self <= Z.of_nat (length (dropna (sheet_rows sh))) ->
  fst (run self sh w) = Abort NoObjectsToConcatenate
  \/ exists (result : list assigned) (w' : world),
       run self sh w = (Ret result, w')
       /\ forall c1 c2 : Z,
            1 <= c1 <= K self -> 1 <= c2 <= K self ->
            Z.abs (headcount c1 result - headcount c2 result)
            <= (if has_rural (fst (load_data self sh)) then 12 else 6).
Proof.
  intros HK Hlen. rewrite run_unfold.
  set (self' := fst (load_data self sh)).
  set (df := dropna (sheet_rows sh)).
  rewrite allocate_unfold by exact Hlen.
  assert (Hall : Forall (whole_or_none (fun _ => true))
                        (all_groups self' df)).
  { apply Forall_forall. intros g _. left.
    apply Forall_forall. reflexivity. }
  destruct (for_each_balance self' HK (fun _ => true)
              (all_groups self' df) [] w Hall)
    as (outs & w' & Hrun & Hbal).
  rewrite Hrun. simpl app. simpl fst. simpl snd.
  destruct (finish_cases outs) as [E|E]; rewrite E; [now left|right].
  eexists _, w'. split; [reflexivity|].
  intros c1 c2 Hc1 Hc2. specialize (Hbal c1 c2 Hc1 Hc2).
  rewrite <- !(count_in_all _ (fun _ => true))
    by (apply Forall_forall; reflexivity).
  rewrite !(count_in_perm _ _ _ _ (sort_values_perm _ _ (concat outs))).
  pose proof (filter_length_le (existsb (fun _ : ranked => true))
                (all_groups self' df)) as Hle.
  unfold all_groups in Hle at 2. rewrite groups_count in Hle.
  change (length (layers self' (ranked_frame df))) with 3%nat in Hle.
  unfold group_filters in Hle.
  destruct (has_rural self'); simpl length in Hle; lia.
Qed.

(** ** Students the groups leave out *)

Lemma hits_recognised (self : SunshineDistributor) (r : ranked) :
  hits (group_filters self) r
  = if recognised (has_rural self) (ranked_student r) then 1%nat else 0%nat.
Proof.
  unfold recognised, group_filters, hits, is_male, is_female, is_urban,
    is_rural.
  destruct (String.eqb (gender (ranked_student r)) "男") eqn:Em,
           (String.eqb (gender (ranked_student r)) "女") eqn:Ef,
           (String.eqb (origin (ranked_student r)) "城区") eqn:Eu,
           (String.eqb (origin (ranked_student r)) "乡下") eqn:Er,
           (has_rural self);
    simpl; rewrite ?Em, ?Ef, ?Eu, ?Er; simpl; try reflexivity;
    rewrite ?String.eqb_eq in *; congruence.
Qed.

Lemma filters_select {A : Type} (ps : list (A -> bool)) (keep : A -> bool)
  (l : list A) :
  (forall x, hits ps x = if keep x then 1%nat else 0%nat) ->
  Permutation (concat (map (fun p => filter p l) ps)) (filter keep l).
Proof.
  intros H. induction l as [|x l IH].
  - simpl. clear H. induction ps as [|p ps IHps]; simpl;
      [reflexivity|exact IHps].
  - rewrite filters_cons, H. simpl. destruct (keep x); simpl.
    + now apply perm_skip.
    + exact IH.
Qed.

(** The groups of a layer hold its recognised rows, each once; the other
    rows are in no group. *)
Lemma groups_select (self : SunshineDistributor) (layer : list ranked) :
  Permutation (concat (groups self layer)) (filter (kept self) layer).
Proof.
  rewrite groups_filters. apply filters_select.
  intros r. apply hits_recognised.
Qed.

Lemma groups_of_layers_select (self : SunshineDistributor)
  (ls : list (list ranked)) :
  Permutation (concat (concat (map (groups self) ls)))
              (filter (kept self) (concat ls)).
Proof.
  induction ls as [|l ls IH]; simpl; [reflexivity|].
  rewrite concat_app, filter_app. apply Permutation_app.
  - apply groups_select.
  - exact IH.
Qed.

Lemma filter_map_swap {A B : Type} (f : A -> B) (p : B -> bool)
  (l : list A) :
  filter p (map f l) = map f (filter (fun x => p (f x)) l).
Proof.
  induction l as [|x l IH]; simpl; [reflexivity|].
  destruct (p (f x)); simpl; now rewrite IH.
Qed.

Section Unrecognised.

Context {pandas : Pandas}.

Lemma for_each_all_empty (self : SunshineDistributor)
  (gs : list (list ranked)) (acc : list (list assigned)) (w : world) :
  Forall (fun g => g = []) gs ->
  for_each (_distribute_sub_group self) gs acc w = (Ret acc, w).
Proof.
  induction 1 as [|g gs -> _ IH]; [reflexivity|].
  cbn [for_each]. unfold bind. rewrite distribute_empty. exact IH.
Qed.

(** The recognised rows of the ranked frame are the recognised students of
    the roster. *)
Lemma kept_students (self : SunshineDistributor) (df : list student) :
  Permutation (map ranked_student (filter (kept self) (ranked_frame df)))
              (filter (recognised (has_rural self)) df).
Proof.
  unfold kept.
  rewrite <- (filter_map_swap ranked_student (recognised (has_rural self))).
  apply filter_perm, ranked_frame_students.
Qed.

End Unrecognised.

(** X6.  Which students a run places.  With at least one class, a top
    quota that is not negative, a bottom quota of at least one row and a
    roster that fills the quotas, the output holds exactly the students
    with a recognised gender (and origin, when the sheet has that column),
    each once and with a class of [1..K]; every other student of the
    roster is left out without a message. *)
Theorem X6_output_is_the_recognised_students
  (pandas : Pandas) (self : SunshineDistributor) (sh : sheet) (w : world) :
  1 <= K self -> 0 <= top_N self -> 0 < bot_N self ->
  top_N self + bot_N self <= Z.of_nat (length (dropna (sheet_rows sh))) ->
  filter (recognised (has_rural (fst (load_data self sh))))
         (dropna (sheet_rows sh)) <> [] ->
  exists (result : list assigned) (w' : world),
    run self sh w = (Ret result, w')
    /\ Permutation (map student_of result)
         (filter (recognised (has_rural (fst (load_data self sh))))
                 (dropna (sheet_rows sh)))
    /\ Forall (fun a => 1 <= class_id a <= K self) result.
Proof.
  intros HK Ht Hb Hlen Hsome. rewrite run_unfold.
  set (self' := fst (load_data self sh)) in *.
  set (df := dropna (sheet_rows sh)) in *.
  rewrite allocate_unfold by exact Hlen.
  destruct (distribute_all self' (all_groups self' df) [] w HK)
    as (outs & w' & Hrun & Hperm & Hrange & Hne).
  rewrite Hrun. simpl app. simpl fst. simpl snd.
  assert (Hgroups : Permutation (concat (all_groups self' df))
                      (filter (kept self') (ranked_frame df))).
  { unfold all_groups. rewrite groups_of_layers_select.
    rewrite layers_partition; [reflexivity|assumption|assumption|].
    rewrite ranked_frame_length. exact Hlen. }
  assert (Hstud : Permutation (map ranked_student (concat (all_groups self' df)))
                    (filter (recognised (has_rural self')) df)).
  { rewrite (Permutation_map _ Hgroups).
    apply kept_students. }
  assert (Houts : outs <> []).
  { apply Hne. intros E. rewrite E in Hstud. cbn [map] in Hstud.
    apply Permutation_nil in Hstud. exact (Hsome Hstud). }
  destruct outs as [|o outs]; [congruence|].
  eexists _, w'. split; [reflexivity|]. split.
  - unfold student_of. rewrite <- map_map.
    rewrite (Permutation_map _ (sort_values_perm _ _ _)).
    rewrite (Permutation_map _ Hperm). exact Hstud.
  - apply (Permutation_Forall (Permutation_sym (sort_values_perm _ _ _))).
    exact Hrange.
Qed.

Lemma hits_positive {A : Type} (ps : list (A -> bool)) (q : A -> bool)
  (x : A) :
  In q ps -> q x = true -> hits ps x <> 0%nat.
Proof.
  intros Hq Hx. unfold hits.
  assert (Hin : In q (filter (fun p => p x) ps)) by (apply filter_In; auto).
  destruct (filter (fun p => p x) ps); [destruct Hin|discriminate].
Qed.

Lemma group_rows_kept (self : SunshineDistributor) (layer g : list ranked)
  (r : ranked) :
  In g (groups self layer) -> In r g -> In r layer /\ kept self r = true.
Proof.
  rewrite groups_filters. intros Hg Hr.
  apply in_map_iff in Hg. destruct Hg as (q & <- & Hq).
  apply filter_In in Hr. destruct Hr as [Hin Hqr]. split; [exact Hin|].
  pose proof (hits_positive _ q r Hq Hqr) as Hpos.
  rewrite hits_recognised in Hpos. unfold kept.
  destruct (recognised _ _); congruence.
Qed.

(** X7.  A roster that fills the quotas and in which no student has a
    recognised gender (and origin) leaves every group empty: nothing is
    distributed, no permutation is drawn, and the run ends in the
    [ValueError] of [pd.concat] on an empty list, whatever the number of
    classes. *)
Theorem X7_no_recognised_student_raises_in_concat
  (pandas : Pandas) (self : SunshineDistributor) (sh : sheet) (w : world) :
  top_N self + bot_N self <= Z.of_nat (length (dropna (sheet_rows sh))) ->
  filter (recognised (has_rural (fst (load_data self sh))))
         (dropna (sheet_rows sh)) = [] ->
  run self sh w = (Abort NoObjectsToConcatenate, w).
Proof.
  intros Hlen Hnone. rewrite run_unfold.
  set (self' := fst (load_data self sh)) in *.
  set (df := dropna (sheet_rows sh)) in *.
  rewrite allocate_unfold by exact Hlen.
  rewrite for_each_all_empty; [reflexivity|].
  apply Forall_forall. intros g Hg.
  destruct g as [|r t]; [reflexivity|exfalso].
  unfold all_groups in Hg. apply in_concat in Hg.
  destruct Hg as (gl & Hgl & Hg).
  apply in_map_iff in Hgl. destruct Hgl as (layer & <- & Hlayer).
  destruct (group_rows_kept self' layer (r :: t) r Hg (or_introl eq_refl))
    as [Hin Hkept].
  assert (Hframe : In r (ranked_frame df)).
  { unfold layers in Hlayer. simpl in Hlayer.
    destruct Hlayer as [<-|[<-|[<-|[]]]]; eapply In_slice; exact Hin. }
  apply ranked_frame_In in Hframe. destruct Hframe as [Hstu _].
  assert (Hf : In (ranked_student r)
                  (filter (recognised (has_rural self')) df))
    by (apply filter_In; split; assumption).
  rewrite Hnone in Hf. destruct Hf.
Qed.

(** ** The order of the output and of the tiers *)

Lemma by_class_then_score_total : total by_class_then_score.
Proof.
  intros a b. unfold by_class_then_score.
  destruct (Z.ltb_spec (class_id a) (class_id b)),
           (Z.ltb_spec (class_id b) (class_id a)),
           (Z.eqb_spec (class_id a) (class_id b)),
           (Z.eqb_spec (class_id b) (class_id a)),
           (Z.leb_spec (ascore b) (ascore a)),
           (Z.leb_spec (ascore a) (ascore b)); simpl; auto; lia.
Qed.

Lemma by_class_then_score_spec (a b : assigned) :
  by_class_then_score a b = true <-> class_then_score a b.
Proof.
  unfold by_class_then_score, class_then_score.
  rewrite orb_true_iff, andb_true_iff, Z.ltb_lt, Z.eqb_eq, Z.leb_le.
  reflexivity.
Qed.

Lemma by_class_then_score_transitive : transitive by_class_then_score.
Proof.
  intros a b c. rewrite !by_class_then_score_spec.
  unfold class_then_score. lia.
Qed.

(** X8.  The output of a run is ordered by class ascending and, inside a
    class, by score descending. *)
Theorem X8_output_is_ordered_by_class_then_score
  (pandas : Pandas) (self : SunshineDistributor) (sh : sheet)
  (w w' : world) (result : list assigned) :
  run self sh w = (Ret result, w') ->
  StronglySorted class_then_score result.
Proof.
  rewrite run_unfold.
  set (self' := fst (load_data self sh)).
  set (df := dropna (sheet_rows sh)).
  destruct (Z.lt_ge_cases (Z.of_nat (length df)) (top_N self' + bot_N self'))
    as [Hlt|Hge].
  - rewrite allocate_abort by exact Hlt. discriminate.
  - rewrite allocate_unfold by exact Hge.
    destruct (fst (for_each _ (all_groups self' df) [] w)) as [al| |];
      try discriminate.
    destruct al as [|o al]; simpl; [discriminate|].
    intros E. injection E as <- _.
    apply StronglySorted_weaken
      with (R := fun a b => by_class_then_score a b = true).
    + intros a b. apply by_class_then_score_spec.
    + apply sort_values_sorted;
        [apply by_class_then_score_total
        |apply by_class_then_score_transitive].
Qed.

Lemma StronglySorted_app_cross {A : Type} (R : A -> A -> Prop)
  (l1 l2 : list A) :
  StronglySorted R (l1 ++ l2) ->
  forall a b, In a l1 -> In b l2 -> R a b.
Proof.
  induction l1 as [|x l1 IH]; simpl; intros H a b Ha Hb; [destruct Ha|].
  inversion H as [|? ? Hs Hx]; subst.
  destruct Ha as [<-|Ha].
  - rewrite Forall_forall in Hx. apply Hx. apply in_or_app. now right.
  - now apply IH.
Qed.

Lemma StronglySorted_app_right {A : Type} (R : A -> A -> Prop)
  (l1 l2 : list A) :
  StronglySorted R (l1 ++ l2) -> StronglySorted R l2.
Proof.
  induction l1 as [|x l1 IH]; simpl; intros H; [exact H|].
  inversion H; subst. now apply IH.
Qed.

(** X9.  The tiers are strata of the score.  With a top quota that is not
    negative, a bottom quota of at least one row and a roster that fills
    them, the top layer has [top_N] rows, the bottom layer [bot_N], and no
    row of a lower layer has a higher score than a row of a layer above
    it. *)
Theorem X9_layers_are_score_strata
  (pandas : Pandas) (self : SunshineDistributor) (df : list student) :
  0 <= top_N self -> 0 < bot_N self ->
  top_N self + bot_N self <= Z.of_nat (length df) ->
  exists top mid bot : list ranked,
    layers self (ranked_frame df) = [top; mid; bot]
    /\ Z.of_nat (length top) = top_N self
    /\ Z.of_nat (length bot) = bot_N self
    /\ (forall a b, In a top -> In b (mid ++ bot) -> rscore b <= rscore a)
    /\ (forall a b, In a mid -> In b bot -> rscore b <= rscore a).
Proof.
  intros Ht Hb Hlen.
  pose proof (ranked_frame_length df) as Hrf.
  assert (Hsorted : StronglySorted (fun a b => rscore b <= rscore a)
                                   (ranked_frame df)).
  { apply StronglySorted_weaken
      with (R := fun a b => by_score_desc a b = true).
    - intros a b. unfold by_score_desc. lia.
    - apply sort_values_sorted;
        [apply by_score_desc_total|apply by_score_desc_transitive]. }
  assert (Hlen' : top_N self + bot_N self
                  <= Z.of_nat (length (ranked_frame df)))
    by (rewrite Hrf; exact Hlen).
  pose proof (three_slices (top_N self) (bot_N self) (ranked_frame df)
                Ht Hb Hlen') as Hcut.
  eexists _, _, _. split; [reflexivity|].
  rewrite <- Hcut in Hsorted.
  split; [|split; [|split]].
  - rewrite slice_prefix by exact Ht. rewrite length_firstn. lia.
  - rewrite slice_last by lia. rewrite length_skipn. lia.
  - apply (StronglySorted_app_cross _ _ _ Hsorted).
  - apply StronglySorted_app_right in Hsorted.
    apply (StronglySorted_app_cross _ _ _ Hsorted).
Qed.

(** ** A bottom quota of zero *)

Lemma layers_bottom_zero (self : SunshineDistributor) (df : list ranked) :
  bot_N self = 0 -> 0 <= top_N self <= Z.of_nat (length df) ->
  layers self df = [ firstn (Z.to_nat (top_N self)) df; []; df ].
Proof.
  intros Hb Ht. unfold layers. rewrite Hb. change (- 0) with 0.
  rewrite slice_prefix by lia. rewrite slice_from by lia. simpl skipn.
  do 2 f_equal. unfold Py.slice, Py.clamp.
  destruct (Z.ltb_spec (top_N self) 0); [lia|].
  change (0 <? 0) with false. cbv iota.
  replace (Z.to_nat (_ - _)) with 0%nat by lia. reflexivity.
Qed.

(** X10.  With a bottom quota of zero rows the middle layer is empty and
    the bottom layer is the whole frame, so the [top_N] best students are
    distributed in the top layer and again in the bottom layer: a run over
    recognised students returns every student once and the students of the
    top layer a second time. *)
Theorem X10_bottom_quota_zero_places_the_top_twice
  (pandas : Pandas) (self : SunshineDistributor) (sh : sheet) (w : world) :
  1 <= K self -> bot_N self = 0 ->
  0 <= top_N self <= Z.of_nat (length (dropna (sheet_rows sh))) ->
  dropna (sheet_rows sh) <> [] ->
  Forall (fun s => recognised (has_rural (fst (load_data self sh))) s = true)
         (dropna (sheet_rows sh)) ->
  let rf := ranked_frame (dropna (sheet_rows sh)) in
  layers (fst (load_data self sh)) rf
  = [ firstn (Z.to_nat (top_N self)) rf; []; rf ]
  /\ exists (result : list assigned) (w' : world),
       run self sh w = (Ret result, w')
       /\ Permutation (map student_of result)
            (map ranked_student (firstn (Z.to_nat (top_N self)) rf)
             ++ dropna (sheet_rows sh)).
Proof.
  intros HK Hb Ht Hne Hrec rf.
  set (self' := fst (load_data self sh)) in *.
  set (df := dropna (sheet_rows sh)) in *.
  assert (Hlayers : layers self' rf
                    = [ firstn (Z.to_nat (top_N self)) rf; []; rf ]).
  { apply (layers_bottom_zero self'); [exact Hb|].
    unfold rf. rewrite ranked_frame_length. exact Ht. }
  split; [exact Hlayers|].
  rewrite run_unfold. fold self' df.
  rewrite allocate_unfold by (change (bot_N self') with (bot_N self);
                              change (top_N self') with (top_N self); lia).
  destruct (distribute_all self' (all_groups self' df) [] w HK)
    as (outs & w' & Hrun & Hperm & _ & Hnonempty).
  rewrite Hrun. simpl app. simpl fst. simpl snd.
  assert (Hgroups : Permutation (concat (all_groups self' df))
                      (firstn (Z.to_nat (top_N self)) rf ++ rf)).
  { unfold all_groups. fold rf. rewrite groups_of_layers.
    - rewrite Hlayers. simpl concat. now rewrite app_nil_r.
    - rewrite Hlayers. simpl concat. rewrite app_nil_r.
      apply Forall_forall. intros r Hr.
      assert (Hin : In r rf).
      { apply in_app_or in Hr. destruct Hr as [Hr|Hr]; [|exact Hr].
        eapply In_firstn. exact Hr. }
      apply ranked_frame_In in Hin. destruct Hin as [Hin _].
      rewrite Forall_forall in Hrec. now apply Hrec. }
  assert (Houts : outs <> []).
  { apply Hnonempty. intros E. rewrite E in Hgroups.
    apply Permutation_length in Hgroups.
    rewrite length_app in Hgroups. unfold rf in Hgroups at 2.
    rewrite ranked_frame_length in Hgroups.
    destruct df; [congruence|simpl in Hgroups; lia]. }
  destruct outs as [|o outs]; [congruence|].
  eexists _, w'. split; [reflexivity|].
  unfold student_of. rewrite <- map_map.
  rewrite (Permutation_map _ (sort_values_perm _ _ _)).
  rewrite (Permutation_map _ Hperm), (Permutation_map _ Hgroups).
  rewrite map_app. apply Permutation_app_head.
  apply ranked_frame_students.
Qed.

(** ** The draws of a run *)

Section Draws.

Context {pandas : Pandas}.

Variable self : SunshineDistributor.
Hypothesis K_positive : 1 <= K self.

Lemma for_each_draws (gs : list (list ranked))
  (acc : list (list assigned)) (w : world) :
  exists perms : list (list Z),
    shuffled (snd (for_each (_distribute_sub_group self) gs acc w))
    = shuffled w ++ perms
    /\ length perms = length (filter occupied gs)
    /\ Forall (fun p => Permutation p (Py.range 1 (K self + 1))) perms.
Proof.
  revert acc w; induction gs as [|g gs IH]; intros acc w.
  - exists []. simpl. rewrite app_nil_r. repeat split. constructor.
  - cbn [for_each]. unfold bind. destruct g as [|r t].
    + rewrite distribute_empty. apply IH.
    + destruct (distribute_nonempty self (r :: t) acc w K_positive
                  ltac:(discriminate)) as (m & _ & Hrun).
      rewrite Hrun.
      match goal with |- context [for_each _ gs ?a ?w0] =>
        destruct (IH a w0) as (perms & Hlog & Hlen & Hperm) end.
      exists (base_permutation (K self) (rng w) :: perms).
      rewrite Hlog. simpl shuffled. rewrite <- app_assoc.
      split; [reflexivity|]. split; [simpl; now rewrite Hlen|].
      constructor; [apply base_permutation_perm|exact Hperm].
Qed.

End Draws.

(** X11.  A run with at least one class that passes the size check calls
    [random.shuffle] once for every sub-group that is not empty and never
    for an empty one, and every list it gets back is a permutation of
    [1..K]. *)
Theorem X11_one_shuffle_per_occupied_group
  (pandas : Pandas) (self : SunshineDistributor) (sh : sheet) (w : world) :
  1 <= K self ->
  top_N self + bot_N self <= Z.of_nat (length (dropna (sheet_rows sh))) ->
  exists perms : list (list Z),
    shuffled (snd (run self sh w)) = shuffled w ++ perms
    /\ length perms
       = length (filter occupied
                   (all_groups (fst (load_data self sh))
                               (dropna (sheet_rows sh))))
    /\ Forall (fun p => Permutation p (Py.range 1 (K self + 1))) perms.
Proof.
  intros HK Hlen. rewrite run_unfold.
  rewrite allocate_unfold by exact Hlen. simpl snd.
  apply (for_each_draws (fst (load_data self sh)) HK).
Qed.

(** * [load_data] *)

Section Loading.

Import Loader.

Lemma dropna_cells (rows : list cell_row) :
  map cell_of (dropna rows) = filter numeric rows.
Proof.
  induction rows as [|c t IH]; simpl; [reflexivity|].
  unfold numeric at 1. destruct c as [n g o [v|]]; simpl; now rewrite IH.
Qed.

Lemma filter_length_split {A : Type} (p : A -> bool) (l : list A) :
  (length (filter p l) + length (filter (fun x => negb (p x)) l)
   = length l)%nat.
Proof.
  induction l as [|x t IH]; simpl; [reflexivity|].
  destruct (p x); simpl; lia.
Qed.

Lemma missing_of_required (cols : list string) :
  filter (fun col => negb (mem col cols))
         (base_cols ++ (if mem "城乡" cols then ["城乡"%string] else []))
  = filter (fun col => negb (mem col cols)) base_cols.
Proof.
  rewrite filter_app.
  destruct (mem "城乡" cols) eqn:E; simpl; rewrite ?E; simpl;
    now rewrite app_nil_r.
Qed.

(** On a workbook a new object's [load_data] reports the lacking ones of
    the three base columns, or loads. *)
Lemma load_book (n_classes top_n bottom_n : Z) (wb : workbook) :
  load_data (new n_classes top_n bottom_n) (Book wb) =
  let required :=
    base_cols ++ (if mem "城乡" (columns wb) then ["城乡"%string] else []) in
  match filter (fun col => negb (mem col (columns wb))) base_cols with
  | [] =>
      Frame {| obj := fst (Sunshine.load_data
                             (init n_classes top_n bottom_n) (sheet_of wb));
               required_cols := required |}
            (filter (fun col => negb (mem col ["班级"; "年级排名"]%string))
                    (columns wb))
            (length (book_rows wb)) (dropna (book_rows wb))
  | m :: ms => SysExit (MissingColumns (m :: ms) required)
  end.
Proof.
  pose proof (missing_of_required (columns wb)) as Hm.
  unfold load_data, new, Sunshine.load_data, sheet_of.
  cbn [required_cols obj has_origin_column sheet_rows fst K top_N bot_N
       has_rural init].
  destruct (mem "城乡" (columns wb)) eqn:Eo;
    cbn [required_cols obj app] in *;
    unfold base_cols in *; cbn [app] in Hm; try rewrite Hm;
    destruct (filter _ ["姓名"; "性别"; "总分"]%string); reflexivity.
Qed.

Lemma filter_nil_iff {A : Type} (p : A -> bool) (l : list A) :
  filter p l = [] <-> forall x, In x l -> p x = false.
Proof.
  split.
  - intros H x Hx. destruct (p x) eqn:E; [|reflexivity].
    assert (Hin : In x (filter p l)) by (apply filter_In; auto).
    rewrite H in Hin. destruct Hin.
  - intros H. apply filter_none. now apply Forall_forall.
Qed.

(** X12.  When a new object's [load_data] exits.  It exits exactly when
    there is no file at the path, when the file cannot be read, or when the
    header lacks one of the columns name, gender, score; then the message
    lists the lacking ones of these three.  The origin column is optional
    and never reported. *)
Theorem X12_load_data_exits_for_a_lacking_base_column
  (n_classes top_n bottom_n : Z) (f : file) :
  ((exists e, load_data (new n_classes top_n bottom_n) f = SysExit e)
   <-> f = Absent \/ f = Unreadable
       \/ exists wb col,
            f = Book wb /\ In col base_cols
            /\ mem col (columns wb) = false)
  /\ forall wb missing required,
       load_data (new n_classes top_n bottom_n) (Book wb)
       = SysExit (MissingColumns missing required) ->
       missing = filter (fun col => negb (mem col (columns wb))) base_cols
       /\ ~ In "城乡"%string missing.
Proof.
  split; [split|].
  - intros [e He]. destruct f as [| |wb]; auto.
    right. right. rewrite load_book in He. cbv zeta in He.
    destruct (filter _ base_cols) as [|m ms] eqn:Em; [discriminate|].
    assert (Hin : In m (filter (fun col => negb (mem col (columns wb)))
                               base_cols))
      by (rewrite Em; now left).
    apply filter_In in Hin. destruct Hin as [Hin Hm].
    exists wb, m. repeat split; auto.
    now apply negb_true_iff.
  - intros [->|[->|(wb & col & -> & Hcol & Hmem)]].
    + eexists. reflexivity.
    + eexists. reflexivity.
    + rewrite load_book. cbv zeta.
      destruct (filter _ base_cols) as [|m ms] eqn:Em.
      * rewrite filter_nil_iff in Em. specialize (Em col Hcol).
        rewrite Hmem in Em. discriminate.
      * eexists. reflexivity.
  - intros wb missing required H. rewrite load_book in H. cbv zeta in H.
    destruct (filter _ base_cols) as [|m ms] eqn:Em; [discriminate|].
    injection H as <- _. split; [reflexivity|].
    intros Hin. rewrite <- Em in Hin. apply filter_In in Hin.
    destruct Hin as [Hin _]. unfold base_cols in Hin. simpl in Hin.
    repeat (destruct Hin as [Hin|Hin]; [discriminate|]). exact Hin.
Qed.

(** X13.  What [load_data] returns for a workbook with the three base
    columns: the frame is the rows of the sheet whose score is a number, in
    their order, so that the rows dropped are the others; the columns class
    and grade rank of the sheet are not in it and every other column is;
    and the flag for the origin column is set when the sheet has it. *)
Theorem X13_load_data_keeps_the_numeric_rows
  (n_classes top_n bottom_n : Z) (wb : workbook) :
  (forall col, In col base_cols -> mem col (columns wb) = true) ->
  exists (self : loader) (cols : list string) (df : list student),
    load_data (new n_classes top_n bottom_n) (Book wb)
    = Frame self cols (length (book_rows wb)) df
    /\ map cell_of df = filter numeric (book_rows wb)
    /\ (length df
        + length (filter (fun c => negb (numeric c)) (book_rows wb))
        = length (book_rows wb))%nat
    /\ (forall col, In col cols
                    <-> In col (columns wb)
                        /\ col <> "班级"%string /\ col <> "年级排名"%string)
    /\ has_rural (obj self) = mem "城乡" (columns wb)
    /\ (K (obj self), top_N (obj self), bot_N (obj self))
       = (n_classes, top_n * n_classes, bottom_n * n_classes).
Proof.
  intros Hcols. rewrite load_book. cbv zeta.
  assert (Em : filter (fun col => negb (mem col (columns wb))) base_cols = []).
  { apply filter_nil_iff. intros col Hcol. now rewrite (Hcols col Hcol). }
  rewrite Em. eexists _, _, _. split; [reflexivity|].
  split; [apply dropna_cells|]. split; [|split; [|split]].
  - rewrite <- (filter_length_split numeric (book_rows wb)).
    rewrite <- dropna_cells, length_map. reflexivity.
  - intros col. rewrite filter_In. unfold mem. simpl.
    destruct (String.eqb_spec col "班级"), (String.eqb_spec col "年级排名");
      simpl; split; intros [H1 H2]; try discriminate; try tauto;
      split; auto.
  - simpl. unfold mem. now destruct (existsb _ (columns wb)).
  - reflexivity.
Qed.

(** X14.  The list of required columns lives in the object.  Once an
    object has loaded a workbook with the origin column, the origin column
    stays required: the same object exits on a workbook without it, and
    lists it as lacking. *)
Theorem X14_origin_stays_required_after_a_load
  (n_classes top_n bottom_n : Z) (wb1 wb2 : workbook)
  (self : loader) (cols : list string) (len : nat) (df : list student) :
  load_data (new n_classes top_n bottom_n) (Book wb1)
  = Frame self cols len df ->
  mem "城乡" (columns wb1) = true ->
  mem "城乡" (columns wb2) = false ->
  exists missing required,
    load_data self (Book wb2) = SysExit (MissingColumns missing required)
    /\ In "城乡"%string missing.
Proof.
  intros Hload H1 H2. rewrite load_book in Hload. cbv zeta in Hload.
  destruct (filter _ base_cols) as [|m ms]; [|discriminate].
  injection Hload as <- _ _ _. rewrite H1.
  unfold load_data. rewrite H2. cbn [required_cols].
  assert (Hin : In "城乡"%string
                  (filter (fun col => negb (mem col (columns wb2)))
                          ["姓名"; "性别"; "总分"; "城乡"]%string)).
  { apply filter_In. split; [|now rewrite H2]. simpl. auto. }
  destruct (filter _ ["姓名"; "性别"; "总分"; "城乡"]%string) as [|m ms] eqn:Em;
    [destruct Hin|].
  eexists _, _. split; [reflexivity|exact Hin].
Qed.

End Loading.

(** * The statistics by class *)

(** ** [groupby] *)

Lemma dedup_sorted_In (l : list Z) (c : Z) :
  In c (Analysis.dedup_sorted l) <-> In c l.
Proof.
  induction l as [|x t IH]; [reflexivity|].
  destruct t as [|y t']; [reflexivity|].
  change (Analysis.dedup_sorted (x :: y :: t'))
    with (if (x =? y) then Analysis.dedup_sorted (y :: t')
          else x :: Analysis.dedup_sorted (y :: t')).
  destruct (Z.eqb_spec x y) as [->|Hne].
  - rewrite IH. simpl. tauto.
  - simpl In at 1. rewrite IH. simpl. tauto.
Qed.

Lemma dedup_sorted_strict (l : list Z) :
  StronglySorted Z.le l -> StronglySorted Z.lt (Analysis.dedup_sorted l).
Proof.
  induction 1 as [|x t Hs IH Hx]; [constructor|].
  destruct t as [|y t']; [simpl; repeat constructor|].
  change (Analysis.dedup_sorted (x :: y :: t'))
    with (if (x =? y) then Analysis.dedup_sorted (y :: t')
          else x :: Analysis.dedup_sorted (y :: t')).
  destruct (Z.eqb_spec x y) as [->|Hne]; [exact IH|].
  constructor; [exact IH|].
  apply Forall_forall. intros c Hc.
  apply (proj1 (dedup_sorted_In _ _)) in Hc.
  inversion Hs as [|? ? _ Hy]; subst.
  inversion Hx as [|? ? Hxy _]; subst.
  apply in_inv in Hc. destruct Hc as [<-|Hc]; [lia|].
  rewrite Forall_forall in Hy. specialize (Hy c Hc). lia.
Qed.

Lemma strict_NoDup (l : list Z) : StronglySorted Z.lt l -> NoDup l.
Proof.
  induction 1 as [|x t _ IH Hx]; constructor; [|exact IH].
  intros Hin. rewrite Forall_forall in Hx. specialize (Hx x Hin). lia.
Qed.

Lemma keys_of_In (l : list Z) (c : Z) : In c (keys_of l) <-> In c l.
Proof.
  unfold keys_of. rewrite dedup_sorted_In. split; intros H.
  - apply (Permutation_in _ (isort_perm Z.leb l)). exact H.
  - apply (Permutation_in _ (Permutation_sym (isort_perm Z.leb l))). exact H.
Qed.

Lemma keys_of_strict (l : list Z) : StronglySorted Z.lt (keys_of l).
Proof.
  apply dedup_sorted_strict.
  apply StronglySorted_weaken with (R := fun a b => Z.leb a b = true).
  - intros a b. apply Z.leb_le.
  - apply isort_sorted.
    + intros a b. rewrite !Z.leb_le. lia.
    + intros a b c. rewrite !Z.leb_le. lia.
Qed.

Section Cover.

Context {A : Type} (f : A -> Z).

Lemma indicator_sum (ks : list Z) (v : Z) :
  list_sum (map (fun c => if v =? c then 1%nat else 0%nat) ks)
  = count ks v.
Proof.
  induction ks as [|k ks IH]; simpl; [reflexivity|].
  rewrite <- IH. unfold list_sum.
  destruct (Z.eqb_spec v k), (Z.eq_dec k v); try congruence; reflexivity.
Qed.

(** The groups of a [groupby] hold every row once. *)
Lemma groups_cover (ks : list Z) (rows : list A) :
  NoDup ks -> (forall r, In r rows -> In (f r) ks) ->
  list_sum (map (fun c => length (filter (fun r => f r =? c) rows)) ks)
  = length rows.
Proof.
  intros Hnd. induction rows as [|r t IH]; intros Hin.
  - simpl. clear. induction ks as [|k ks IHk]; simpl; [reflexivity|].
    exact IHk.
  - assert (H1 : count ks (f r) = 1%nat).
    { apply NoDup_count_occ'; [exact Hnd|]. apply Hin. now left. }
    assert (Hsplit : forall ks',
              list_sum (map (fun c =>
                               length (filter (fun r0 => f r0 =? c) (r :: t)))
                            ks')
              = Nat.add
                  (list_sum (map (fun c => if f r =? c then 1%nat else 0%nat)
                                 ks'))
                  (list_sum (map (fun c =>
                                    length (filter (fun r0 => f r0 =? c) t))
                                 ks'))).
    { unfold list_sum. induction ks' as [|k ks' IHk]; [reflexivity|].
      cbn [map fold_right]. rewrite IHk.
      simpl filter. destruct (f r =? k); simpl; lia. }
    rewrite Hsplit, indicator_sum, H1.
    rewrite (IH (fun x Hx => Hin x (or_intror Hx))). reflexivity.
Qed.

Lemma groupby_cover (rows : list A) :
  list_sum (map (fun c => length (filter (fun r => f r =? c) rows))
                (keys_of (map f rows)))
  = length rows.
Proof.
  apply groups_cover.
  - apply strict_NoDup, keys_of_strict.
  - intros r Hr. apply keys_of_In. now apply in_map.
Qed.

End Cover.

Lemma qsum_inject (g : Z -> nat) (ks : list Z) :
  (Analysis.qsum (map (fun c => inject_Z (Z.of_nat (g c))) ks)
   == inject_Z (Z.of_nat (list_sum (map g ks))))%Q.
Proof.
  induction ks as [|k ks IH]; simpl; [reflexivity|].
  rewrite IH. rewrite Nat2Z.inj_add, inject_Z_plus. reflexivity.
Qed.

(** ** The report of [analyze_class_balance] *)

Section ReportRows.

Import Analysis.

Lemma per_class_nonempty (df : frame) : rows df <> [] -> per_class df <> [].
Proof.
  intros H. unfold per_class.
  pose proof (group_keys_nonempty (rows df) H) as Hk.
  destruct (group_keys (rows df)); [congruence|discriminate].
Qed.

(** The columns of the report of a frame with at least one row. *)
Definition report_columns (df : frame) : list string :=
  ["男生"; "女生"; "总人数"]%string
  ++ (if has_score df then ["平均分"%string] else [])
  ++ (if has_rural df then ["城区"; "乡下"]%string else []).

Lemma cols_order_columns (df : frame) :
  rows df <> [] ->
  cols_order df (columns (per_class df)) = report_columns df.
Proof.
  intros H. unfold per_class.
  pose proof (group_keys_nonempty (rows df) H) as Hk.
  destruct (group_keys (rows df)) as [|c cs]; [congruence|].
  unfold cols_order, columns, calc_stats, report_columns. simpl.
  destruct (has_score df), (has_rural df); reflexivity.
Qed.

(** X15.  The rows of the report, for a sheet whose class cells are all
    filled: one row for every class that occurs in the sheet, by ascending
    class, then the row of averages; and, when the sheet has at least one
    row, every row of the report has the columns boys, girls, head count,
    then the mean score only if the sheet has a score column, then the two
    origin counts only if it has an origin column. *)
Theorem X15_report_rows_and_columns (df : frame) :
  map fst (analyze_class_balance df)
  = map ClassLabel (group_keys (rows df)) ++ [AverageLabel]
  /\ StronglySorted Z.lt (group_keys (rows df))
  /\ (forall c, In c (group_keys (rows df))
                <-> exists r, In r (rows df) /\ row_class r = c)
  /\ (rows df <> [] ->
      Forall (fun r => map fst (snd r) = report_columns df)
             (analyze_class_balance df)).
Proof.
  split; [|split; [|split]].
  - unfold analyze_class_balance, per_class. rewrite map_map. simpl.
    rewrite map_app, !map_map. reflexivity.
  - apply keys_of_strict.
  - intros c. unfold group_keys. fold (keys_of (map row_class (rows df))).
    rewrite keys_of_In, in_map_iff.
    split; intros (r & H1 & H2); exists r; auto.
  - intros Hne. unfold analyze_class_balance.
    rewrite (cols_order_columns df Hne).
    apply Forall_forall. intros r Hr. apply in_map_iff in Hr.
    destruct Hr as (r0 & <- & _). cbn [snd]. unfold reorder.
    rewrite map_map. cbn [fst]. apply map_id.
Qed.

Lemma calc_stats_headcount (df : frame) (x : list row) :
  get "总人数" (calc_stats df x) = inject_Z (Z.of_nat (length x)).
Proof. reflexivity. Qed.

(** X16.  For a sheet with at least one row and every class cell filled,
    the head counts of the report add up to the number of rows of the
    sheet, and the head count in the row of averages, times the number of
    classes, is that number too.  (A row with an empty class cell would be
    in no class row.) *)
Theorem X16_report_headcounts_add_up (df : frame) :
  rows df <> [] ->
  (qsum (map (get "总人数") (class_rows (analyze_class_balance df)))
   == inject_Z (Z.of_nat (length (rows df))))%Q
  /\ exists avg : series,
       average_row (analyze_class_balance df) = Some avg
       /\ (get "总人数" avg
           * inject_Z (Z.of_nat (length (group_keys (rows df))))
           == inject_Z (Z.of_nat (length (rows df))))%Q.
Proof.
  intros Hne.
  destruct (analyze_rows df) as [Hrows Havg].
  rewrite (cols_order_columns df Hne) in Hrows, Havg.
  assert (Hcol : In "总人数"%string (report_columns df)).
  { unfold report_columns. simpl. auto. }
  assert (Hsum : (qsum (map (fun r => get "总人数" (snd r)) (per_class df))
                  == inject_Z (Z.of_nat (length (rows df))))%Q).
  { unfold per_class. rewrite map_map. simpl snd.
    rewrite (map_ext _ (fun c => inject_Z (Z.of_nat
               (length (filter (fun r => (row_class r =? c)%Z) (rows df))))))
      by (intros c; apply calc_stats_headcount).
    rewrite (qsum_inject
               (fun c => length (filter (fun r => (row_class r =? c)%Z)
                                        (rows df)))).
    unfold group_keys. fold (keys_of (map row_class (rows df))).
    now rewrite groupby_cover. }
  split.
  - rewrite Hrows, map_map.
    rewrite (map_ext _ (fun r => get "总人数" (snd r))); [exact Hsum|].
    intros r. unfold reorder. now rewrite (get_tabulate _ _ _ Hcol).
  - eexists. split; [exact Havg|].
    unfold reorder. rewrite (get_tabulate _ _ _ Hcol).
    unfold column_means.
    rewrite (get_tabulate
               (fun c => mean (map (fun r => get c (snd r)) (per_class df)))).
    + unfold mean. rewrite Hsum, length_map.
      assert (Hlen : length (per_class df) = length (group_keys (rows df)))
        by (unfold per_class; apply length_map).
      rewrite Hlen.
      pose proof (group_keys_nonempty (rows df) Hne) as Hk.
      field. intros E.
      assert (Z.of_nat (length (group_keys (rows df))) = 0%Z).
      { unfold Qeq in E. simpl in E. lia. }
      destruct (group_keys (rows df)); [congruence|simpl in *; lia].
    + eapply cols_order_present with (df := df).
      rewrite (cols_order_columns df Hne). exact Hcol.
Qed.

End ReportRows.

(** ** The statistics of [export_excel] *)

Section ExportStats.

Import ExportExcel.

Lemma stats_row_total (hr : bool) (x : list assigned) :
  Analysis.get "总人数" (stats_row hr x) = inject_Z (Z.of_nat (length x)).
Proof. reflexivity. Qed.

(** X17.  [stats] has one row for every class of the frame, by ascending
    class, and the head counts of its rows add up to the number of rows of
    the frame. *)
Theorem X17_export_headcounts_add_up (hr : bool) (df : list assigned) :
  map fst (stats hr df) = class_keys df
  /\ StronglySorted Z.lt (class_keys df)
  /\ (forall c, In c (class_keys df) <-> In c (map class_id df))
  /\ (Analysis.qsum (map (fun r => Analysis.get "总人数" (snd r))
                         (stats hr df))
      == inject_Z (Z.of_nat (length df)))%Q.
Proof.
  split; [|split; [|split]].
  - unfold stats. rewrite map_map. apply map_id.
  - apply keys_of_strict.
  - intros c. apply keys_of_In.
  - unfold stats. rewrite map_map. cbn [snd].
    rewrite (map_ext _ (fun c => inject_Z (Z.of_nat
                          (length (of_class c df)))))
      by (intros c; apply stats_row_total).
    rewrite (qsum_inject (fun c => length (of_class c df))).
    unfold of_class, class_keys. fold (keys_of (map class_id df)).
    now rewrite (groupby_cover class_id).
Qed.

Lemma length_two_kinds {A : Type} (p q : A -> bool) (x : list A) :
  (forall a, p a && q a = false) ->
  Forall (fun a => p a || q a = true) x ->
  length x = (length (filter p x) + length (filter q x))%nat.
Proof.
  intros Hex. induction 1 as [|a t Ha _ IH]; simpl; [reflexivity|].
  specialize (Hex a). destruct (p a), (q a); simpl in *;
    try discriminate; lia.
Qed.

Lemma remainder_is_count (n b g : nat) :
  n = (b + g)%nat ->
  (inject_Z (Z.of_nat n) - inject_Z (Z.of_nat b) == inject_Z (Z.of_nat g))%Q.
Proof.
  intros ->. rewrite Nat2Z.inj_add, inject_Z_plus. ring.
Qed.

End ExportStats.

Section RunRows.

Context {pandas : Pandas}.

(** Every row of the output of a run passed one of the group filters. *)
Lemma run_rows_kept (self : SunshineDistributor) (sh : sheet)
  (w w' : world) (result : list assigned) :
  run self sh w = (Ret result, w') ->
  Forall (fun a => kept (fst (load_data self sh)) (assigned_row a) = true)
         result.
Proof.
  rewrite run_unfold.
  set (self' := fst (load_data self sh)).
  set (df := dropna (sheet_rows sh)).
  destruct (Z.lt_ge_cases (Z.of_nat (length df)) (top_N self' + bot_N self'))
    as [Hlt|Hge].
  - rewrite allocate_abort by exact Hlt. discriminate.
  - rewrite allocate_unfold by exact Hge.
    destruct (for_each _ (all_groups self' df) [] w) as [[al| |] w1] eqn:Hrun;
      simpl; try discriminate.
    destruct al as [|o al]; [discriminate|].
    intros E. injection E as <- _.
    apply Forall_forall. intros a Ha.
    apply (Permutation_in _ (sort_values_perm _ _ _)) in Ha.
    destruct (for_each_rows _ _ _ _ _ _ a Hrun Ha) as [[]|Hin].
    apply in_concat in Hin. destruct Hin as (g & Hg & Hr).
    unfold all_groups in Hg. apply in_concat in Hg.
    destruct Hg as (gl & Hgl & Hg).
    apply in_map_iff in Hgl. destruct Hgl as (layer & <- & _).
    now destruct (group_rows_kept self' layer g _ Hg Hr).
Qed.

End RunRows.

Lemma kept_gender (self : SunshineDistributor) (r : ranked) :
  kept self r = true -> is_male r || is_female r = true.
Proof.
  unfold kept, recognised, is_male, is_female.
  intros H. apply andb_true_iff in H. tauto.
Qed.

Lemma kept_origin (self : SunshineDistributor) (r : ranked) :
  has_rural self = true -> kept self r = true ->
  is_urban r || is_rural r = true.
Proof.
  unfold kept, recognised, is_urban, is_rural. intros ->.
  intros H. apply andb_true_iff in H. destruct H as [_ H].
  simpl in H. exact H.
Qed.

(** X18.  [export_excel] reads the number of girls of a class as head
    count minus boys, and the number of rural students as head count minus
    urban ones.  On the output of a run over a sheet whose name cells are
    all filled (so that the head count is the number of rows of the class)
    these are the true numbers: every row of the output went through a
    group filter, so its gender is one of the two literals, and so is its
    origin when the origin column is used. *)
Theorem X18_export_counts_are_exact_on_run_output
  (pandas : Pandas) (self : SunshineDistributor) (sh : sheet)
  (w w' : world) (result : list assigned) (c : Z) (row : Analysis.series) :
  run self sh w = (Ret result, w') ->
  In (c, row)
     (ExportExcel.stats (has_rural (fst (load_data self sh))) result) ->
  (Analysis.get "女生数" row
   == ExportExcel.counted ExportExcel.is_girl
        (ExportExcel.of_class c result))%Q
  /\ (has_rural (fst (load_data self sh)) = true ->
      (Analysis.get "乡下数" row
       == ExportExcel.counted ExportExcel.from_country
            (ExportExcel.of_class c result))%Q).
Proof.
  intros Hrun Hrow.
  pose proof (run_rows_kept self sh w w' result Hrun) as Hkept.
  set (self' := fst (load_data self sh)) in *.
  unfold ExportExcel.stats in Hrow. apply in_map_iff in Hrow.
  destruct Hrow as (c0 & E & _). injection E as -> <-.
  assert (Hx : Forall (fun a => kept self' (assigned_row a) = true)
                      (ExportExcel.of_class c result)).
  { apply Forall_forall. intros a Ha. apply filter_In in Ha.
    rewrite Forall_forall in Hkept. now apply Hkept. }
  split.
  - unfold ExportExcel.stats_row. cbn [app Analysis.get].
    simpl. unfold ExportExcel.counted.
    apply remainder_is_count.
    apply length_two_kinds.
    + intros a. apply male_not_female.
    + eapply Forall_impl; [|exact Hx]. intros a. apply kept_gender.
  - intros Hr.
    change (if has_origin_column sh then true else has_rural self)
      with (has_rural self').
    rewrite Hr. unfold ExportExcel.stats_row.
    simpl. unfold ExportExcel.counted.
    apply remainder_is_count.
    apply length_two_kinds.
    + intros a. apply urban_not_rural.
    + eapply Forall_impl; [|exact Hx]. intros a. now apply kept_origin.
Qed.

(** * The further theorems at sample inputs *)

Lemma X1_snake_closed_form_witness :
  1 <= K (init 3 1 1)
  /\ exists (out : list (list assigned)) (w' : world),
       @_distribute_sub_group stable_pandas (init 3 1 1) demo_group []
         demo_world = (Ret ([] ++ out), w')
       /\ forall i : nat,
            (i < length demo_group)%nat ->
            nth_error (class_ids (concat out)) i
            = nth_error (base_permutation (K (init 3 1 1)) (rng demo_world))
                        (snake_index (Z.to_nat (K (init 3 1 1))) i).
Proof.
  split; [simpl; lia|].
  apply (X1_snake_closed_form stable_pandas (init 3 1 1) demo_group []
           demo_world).
  simpl. lia.
Defined.

Lemma X2_multiple_of_K_is_split_evenly_witness :
  (1 <= K (init 4 1 1)
   /\ Z.of_nat (length demo_group) = 2 * K (init 4 1 1))
  /\ exists (out : list (list assigned)) (w' : world),
       @_distribute_sub_group stable_pandas (init 4 1 1) demo_group []
         demo_world = (Ret ([] ++ out), w')
       /\ forall c : Z,
            1 <= c <= K (init 4 1 1) -> headcount c (concat out) = 2.
Proof.
  split; [split; [simpl; lia|reflexivity]|].
  apply (X2_multiple_of_K_is_split_evenly stable_pandas (init 4 1 1)
           demo_group [] demo_world 2).
  - simpl. lia.
  - reflexivity.
Defined.

Lemma X3_no_class_no_return_witness :
  (K (init 0 1 1) <= 0 /\ demo_group <> [])
  /\ (forall fuel : nat,
        snake_loop fuel (base_permutation (K (init 0 1 1)) (rng demo_world))
          [] (length (@sort_values stable_pandas _ by_score_desc demo_group))
        = None)
  /\ fst (@_distribute_sub_group stable_pandas (init 0 1 1) demo_group []
            demo_world) = Loop.
Proof.
  split; [split; [simpl; lia|discriminate]|].
  apply (X3_no_class_no_return stable_pandas (init 0 1 1) demo_group []
           demo_world).
  - simpl. lia.
  - discriminate.
Defined.


Lemma X5_class_sizes_differ_by_at_most_the_number_of_groups_witness :
  fst (@run stable_pandas (init 2 1 1) demo_sheet demo_world)
  = Abort NoObjectsToConcatenate
  \/ exists (result : list assigned) (w' : world),
       @run stable_pandas (init 2 1 1) demo_sheet demo_world
       = (Ret result, w')
       /\ forall c1 c2 : Z,
            1 <= c1 <= K (init 2 1 1) -> 1 <= c2 <= K (init 2 1 1) ->
            Z.abs (headcount c1 result - headcount c2 result)
            <= (if has_rural (fst (load_data (init 2 1 1) demo_sheet))
                then 12 else 6).
Proof.
  apply (X5_class_sizes_differ_by_at_most_the_number_of_groups stable_pandas
           (init 2 1 1) demo_sheet demo_world).
  - simpl. lia.
  - simpl. lia.
Defined.

Lemma X6_output_is_the_recognised_students_witness :
  exists (result : list assigned) (w' : world),
    @run stable_pandas (init 1 1 1) odd_sheet demo_world = (Ret result, w')
    /\ Permutation (map student_of result)
         (filter (recognised
                    (has_rural (fst (load_data (init 1 1 1) odd_sheet))))
                 (dropna (sheet_rows odd_sheet)))
    /\ Forall (fun a => 1 <= class_id a <= K (init 1 1 1)) result.
Proof.
  apply (X6_output_is_the_recognised_students stable_pandas (init 1 1 1)
           odd_sheet demo_world).
  - simpl. lia.
  - simpl. lia.
  - simpl. lia.
  - simpl. lia.
  - discriminate.
Defined.

Lemma X7_no_recognised_student_raises_in_concat_witness :
  @run stable_pandas (init 1 1 1) unknown_sheet demo_world
  = (Abort NoObjectsToConcatenate, demo_world).
Proof.
  apply (X7_no_recognised_student_raises_in_concat stable_pandas
           (init 1 1 1) unknown_sheet demo_world).
  - simpl. lia.
  - reflexivity.
Defined.

Lemma X8_output_is_ordered_by_class_then_score_witness :
  exists (result : list assigned) (w' : world),
    @run stable_pandas (init 2 1 1) demo_sheet demo_world = (Ret result, w')
    /\ StronglySorted class_then_score result.
Proof.
  eexists _, _. split; [reflexivity|].
  eapply (X8_output_is_ordered_by_class_then_score stable_pandas
            (init 2 1 1) demo_sheet demo_world).
  reflexivity.
Defined.

Lemma X9_layers_are_score_strata_witness :
  exists top mid bot : list ranked,
    @layers (init 2 1 1)
      (@ranked_frame stable_pandas (dropna (sheet_rows demo_sheet)))
    = [top; mid; bot]
    /\ Z.of_nat (length top) = top_N (init 2 1 1)
    /\ Z.of_nat (length bot) = bot_N (init 2 1 1)
    /\ (forall a b, In a top -> In b (mid ++ bot) -> rscore b <= rscore a)
    /\ (forall a b, In a mid -> In b bot -> rscore b <= rscore a).
Proof.
  apply (X9_layers_are_score_strata stable_pandas (init 2 1 1)
           (dropna (sheet_rows demo_sheet))).
  - simpl. lia.
  - simpl. lia.
  - simpl. lia.
Defined.

Lemma X10_bottom_quota_zero_places_the_top_twice_witness :
  exists (result : list assigned) (w' : world),
    @run stable_pandas (init 1 1 0) pair_sheet demo_world = (Ret result, w')
    /\ Permutation (map student_of result)
         (map ranked_student
            (firstn (Z.to_nat (top_N (init 1 1 0)))
               (@ranked_frame stable_pandas (dropna (sheet_rows pair_sheet))))
          ++ dropna (sheet_rows pair_sheet)).
Proof.
  apply (X10_bottom_quota_zero_places_the_top_twice stable_pandas
           (init 1 1 0) pair_sheet demo_world).
  - simpl. lia.
  - reflexivity.
  - simpl. lia.
  - discriminate.
  - repeat constructor.
Defined.

Lemma X11_one_shuffle_per_occupied_group_witness :
  exists perms : list (list Z),
    shuffled (snd (@run stable_pandas (init 2 1 1) demo_sheet demo_world))
    = shuffled demo_world ++ perms
    /\ length perms
       = length (filter occupied
                   (@all_groups stable_pandas
                      (fst (load_data (init 2 1 1) demo_sheet))
                      (dropna (sheet_rows demo_sheet))))
    /\ Forall (fun p => Permutation p (Py.range 1 (K (init 2 1 1) + 1)))
              perms.
Proof.
  apply (X11_one_shuffle_per_occupied_group stable_pandas (init 2 1 1)
           demo_sheet demo_world).
  - simpl. lia.
  - simpl. lia.
Defined.

Lemma X13_load_data_keeps_the_numeric_rows_witness :
  exists (self : Loader.loader) (cols : list string) (df : list student),
    Loader.load_data (Loader.new 2 1 1) (Loader.Book town_book)
    = Loader.Frame self cols (length (Loader.book_rows town_book)) df
    /\ map cell_of df = filter numeric (Loader.book_rows town_book)
    /\ (length df
        + length (filter (fun c => negb (numeric c))
                         (Loader.book_rows town_book))
        = length (Loader.book_rows town_book))%nat
    /\ (forall col, In col cols
                    <-> In col (Loader.columns town_book)
                        /\ col <> "班级"%string /\ col <> "年级排名"%string)
    /\ has_rural (Loader.obj self)
       = Loader.mem "城乡" (Loader.columns town_book)
    /\ (K (Loader.obj self), top_N (Loader.obj self), bot_N (Loader.obj self))
       = (2, 1 * 2, 1 * 2).
Proof.
  apply (X13_load_data_keeps_the_numeric_rows 2 1 1 town_book).
  intros col Hcol. unfold base_cols in Hcol. simpl in Hcol.
  repeat (destruct Hcol as [<-|Hcol]; [reflexivity|]). destruct Hcol.
Defined.

Lemma X14_origin_stays_required_after_a_load_witness :
  exists missing required,
    Loader.load_data
      {| Loader.obj := {| K := 2; top_N := 2; bot_N := 2; has_rural := true |};
         Loader.required_cols := ["姓名"; "性别"; "总分"; "城乡"]%string |}
      (Loader.Book plain_book)
    = Loader.SysExit (Loader.MissingColumns missing required)
    /\ In "城乡"%string missing.
Proof.
  eapply (X14_origin_stays_required_after_a_load 2 1 1 town_book plain_book);
    reflexivity.
Defined.

Lemma X16_report_headcounts_add_up_witness :
  (Analysis.qsum
     (map (Analysis.get "总人数")
          (Analysis.class_rows (Analysis.analyze_class_balance uneven_frame)))
   == inject_Z (Z.of_nat (length (Analysis.rows uneven_frame))))%Q
  /\ exists avg : Analysis.series,
       Analysis.average_row (Analysis.analyze_class_balance uneven_frame)
       = Some avg
       /\ (Analysis.get "总人数" avg
           * inject_Z (Z.of_nat
                         (length (Analysis.group_keys
                                    (Analysis.rows uneven_frame))))
           == inject_Z (Z.of_nat (length (Analysis.rows uneven_frame))))%Q.
Proof.
  apply (X16_report_headcounts_add_up uneven_frame). discriminate.
Defined.

Lemma X18_export_counts_are_exact_on_run_output_witness :
  exists (result : list assigned) (w' : world) (row : Analysis.series),
    @run stable_pandas (init 2 1 1) origin_sheet demo_world = (Ret result, w')
    /\ In (2, row)
          (ExportExcel.stats
             (has_rural (fst (load_data (init 2 1 1) origin_sheet))) result)
    /\ has_rural (fst (load_data (init 2 1 1) origin_sheet)) = true
    /\ (Analysis.get "女生数" row
        == ExportExcel.counted ExportExcel.is_girl
             (ExportExcel.of_class 2 result))%Q
    /\ (Analysis.get "乡下数" row
        == ExportExcel.counted ExportExcel.from_country
             (ExportExcel.of_class 2 result))%Q.
Proof.
  eexists _, _, _. split; [reflexivity|].
  assert (Hin : In (2, ExportExcel.stats_row true
                         (ExportExcel.of_class 2
                            (match fst (@run stable_pandas (init 2 1 1)
                                          origin_sheet demo_world) with
                             | Ret r => r
                             | _ => []
                             end)))
                   (ExportExcel.stats true
                      (match fst (@run stable_pandas (init 2 1 1)
                                    origin_sheet demo_world) with
                       | Ret r => r
                       | _ => []
                       end))).
  { right. left. reflexivity. }
  destruct (X18_export_counts_are_exact_on_run_output stable_pandas
              (init 2 1 1) origin_sheet demo_world _ _ 2 _ eq_refl Hin)
    as [Hgirls Hrural].
  split; [exact Hin|]. split; [reflexivity|].
  split; [exact Hgirls|exact (Hrural eq_refl)].
Defined.
